(** * Smart Blur Tool: the mask-building client and the blur engine's feathering

    A shallow embedding of the React client in [src/myapp/src/App.jsx] (component
    [App]) and of its earlier revision [src/unnamed/part_001] (component
    [BlurTool]), with the part of the browser they run on that their behaviour
    depends on: the 2D canvas (8-bit RGBA bitmaps, source-over compositing),
    image decoding, React state captured by closures, and the queue of pending
    asynchronous callbacks.  The transform engine is not part of the sources; the
    blur mode of section 4.2 of the specification is modelled from the
    specification's words in [Module Engine]. *)

From Stdlib Require Import PrimFloat.
From Stdlib Require Import String ZArith List Bool Lia QArith Lqa.
From Stdlib Require Import DecimalString DecimalZ DecimalPos.
Import ListNotations.
Open Scope string_scope.
Open Scope Z_scope.

(** ** The canvas *)

Module Canvas2D.

(** A pixel as [getImageData] reports it: four channels in [0, 255], alpha not
    premultiplied. *)
Record Pixel := mkPixel { red : Z; green : Z; blue : Z; alpha : Z }.

Definition transparent : Pixel := mkPixel 0 0 0 0.
Definition black : Pixel := mkPixel 0 0 0 255.
Definition white : Pixel := mkPixel 255 255 255 255.
Definition redColour : Pixel := mkPixel 255 0 0 255.

Definition opaque (p : Pixel) : Prop := alpha p = 255.

(** Division rounded to the nearest integer, for a positive divisor. *)
Definition div_round (a b : Z) : Z := (2 * a + b) / (2 * b).

(** A fill colour drawn with coverage or [globalAlpha] [a] (in 255ths). *)
Definition withAlpha (a : Z) (p : Pixel) : Pixel :=
  mkPixel (red p) (green p) (blue p) (div_round (alpha p * a) 255).

(** [globalAlpha = 0.4] in 255ths. *)
Definition alpha40 : Z := 102.

(** The canvas's default compositing operator, source-over: the source [s] drawn
    on the backdrop [d].  The resulting alpha is [as + ad * (1 - as)] and each
    resulting colour is [(cs * as + cd * ad * (1 - as))] divided by it.  With
    the channels in 255ths, [ao] below is 255 times the resulting alpha, and
    every result is rounded to the nearest integer. *)
Definition over (s d : Pixel) : Pixel :=
  let ao := 255 * alpha s + alpha d * (255 - alpha s) in
  if ao =? 0 then transparent
  else
    let ch cs cd := div_round (255 * cs * alpha s + cd * alpha d * (255 - alpha s)) ao in
    mkPixel (ch (red s) (red d)) (ch (green s) (green d)) (ch (blue s) (blue d))
            (div_round ao 255).

(** A canvas bitmap, row-major.  A loaded raster image has at least one pixel in
    each direction, and the client only sizes a canvas from a loaded image. *)
Record Bitmap := mkBitmap { width : positive; height : positive; pixels : list Pixel }.

Definition area (w h : positive) : nat := Pos.to_nat (w * h).

Definition wf_bitmap (b : Bitmap) : Prop :=
  length (pixels b) = area (width b) (height b).

Definition all_opaque (b : Bitmap) : Prop := Forall opaque (pixels b).

(** Assigning [canvas.width] or [canvas.height] clears the bitmap to transparent
    black. *)
Definition blank (w h : positive) : Bitmap :=
  mkBitmap w h (repeat transparent (area w h)).

Definition setWidth (w : positive) (c : Bitmap) : Bitmap := blank w (height c).
Definition setHeight (h : positive) (c : Bitmap) : Bitmap := blank (width c) h.

(** A canvas element as React mounts it: 300 by 150, transparent. *)
Definition freshCanvas : Bitmap := blank 300 150.

(** [ctx.getImageData(0, 0, width, height).data]: the flat RGBA byte array. *)
Definition getImageData (c : Bitmap) : list Z :=
  flat_map (fun p => [red p; green p; blue p; alpha p]) (pixels c).

(** [ctx.fillRect(0, 0, canvas.width, canvas.height)] with fill colour [src]. *)
Definition fillRectAll (src : Pixel) (c : Bitmap) : Bitmap :=
  mkBitmap (width c) (height c) (map (over src) (pixels c)).

(** [ctx.clearRect(0, 0, canvas.width, canvas.height)]. *)
Definition clearRectAll (c : Bitmap) : Bitmap :=
  mkBitmap (width c) (height c) (map (fun _ => transparent) (pixels c)).

Fixpoint mapi_from {A B} (k : nat) (f : nat -> A -> B) (l : list A) : list B :=
  match l with
  | [] => []
  | a :: l' => f k a :: mapi_from (S k) f l'
  end.

Definition mapi {A B} (f : nat -> A -> B) (l : list A) : list B := mapi_from 0 f l.

(** [ctx.drawImage(img, 0, 0)]: the image composited at the origin, clipped to
    the canvas. *)
Definition drawImage (img c : Bitmap) : Bitmap :=
  let cw := Pos.to_nat (width c) in
  let iw := Pos.to_nat (width img) in
  let ih := Pos.to_nat (height img) in
  mkBitmap (width c) (height c)
    (mapi (fun j d =>
             let x := (j mod cw)%nat in
             let y := (j / cw)%nat in
             if ((x <? iw) && (y <? ih))%nat
             then match nth_error (pixels img) (y * iw + x) with
                  | Some s => over s d
                  | None => d
                  end
             else d)
          (pixels c)).

(** [ctx.fillRect(x, y, 1, 1)] with fill colour [src]; nothing is drawn outside
    the canvas. *)
Definition fillRect1 (src : Pixel) (x y : nat) (c : Bitmap) : Bitmap :=
  let cw := Pos.to_nat (width c) in
  let ch := Pos.to_nat (height c) in
  if ((x <? cw) && (y <? ch))%nat
  then mkBitmap (width c) (height c)
         (mapi (fun j d => if (j =? y * cw + x)%nat then over src d else d) (pixels c))
  else c.

(** A filled path drawn in white: [coverage j] is how much of pixel [j] the path
    covers, in 255ths. *)
Definition clamp255 (v : Z) : Z := Z.max 0 (Z.min 255 v).

Definition fillPath (coverage : nat -> Z) (c : Bitmap) : Bitmap :=
  mkBitmap (width c) (height c)
    (mapi (fun j d => over (withAlpha (clamp255 (coverage j)) white) d) (pixels c)).

End Canvas2D.

(** ** What the client exchanges with its environment *)

Module Browser.
Import Canvas2D.

(** The string a [FileReader], [toDataURL] or the engine hands to the client and
    that the client assigns to [img.src]: either it decodes to a raster image
    (the image element fires [load]) or it does not (it fires [error]). *)
Inductive DataURL :=
| DataImage (b : Bitmap)
| DataOther (payload : string).

Definition decode (u : DataURL) : option Bitmap :=
  match u with
  | DataImage b => Some b
  | DataOther _ => None
  end.

(** [img.src = v] for a state variable [v] that may be [null]. *)
Definition decodeSrc (v : option DataURL) : option Bitmap :=
  match v with
  | Some u => decode u
  | None => None
  end.

(** [canvas.toDataURL('image/png')]. *)
Definition toDataURL (c : Bitmap) : DataURL := DataImage c.

(** A [File] of the upload input: its MIME type, its size in bytes and what
    [readAsDataURL] yields ([None]: the reader fires [error]). *)
Record File := mkFile { ftype : string; fsize : Z; fresult : option DataURL }.

(** A JavaScript number is an IEEE 754 double: the kernel's primitive [float],
    with its arithmetic.  [numberOfPos w] is the number a canvas dimension [w]
    is read as; it is exact below 2^53, and a canvas dimension is below 2^32. *)
Fixpoint numberOfPos (p : positive) : float :=
  match p with
  | xH => 1%float
  | xO q => (2 * numberOfPos q)%float
  | xI q => (2 * numberOfPos q + 1)%float
  end.

Definition numberOfN (n : N) : float :=
  match n with
  | N0 => 0%float
  | Npos p => numberOfPos p
  end.

(** A mouse event on the canvas with the canvas's bounding rectangle at that
    moment. *)
Record MouseEvent := mkMouseEvent {
  clientX : float; clientY : float;
  rectLeft : float; rectTop : float; rectWidth : float; rectHeight : float }.

(** JSON values of the request body. *)
Inductive JValue :=
| JNull
| JString (u : DataURL)
| JNumber (n : Z).

(** A call of [fetch(url, {method, headers, mode, body})]; [rbody] is the object
    given to [JSON.stringify], key by key in order. *)
Record Request := mkRequest {
  rurl : string;
  rmethod : string;
  rheaders : list (string * string);
  rcors : option string;
  rbody : list (string * JValue) }.

Fixpoint field (k : string) (o : list (string * JValue)) : option JValue :=
  match o with
  | [] => None
  | (k', v) :: o' => if String.eqb k k' then Some v else field k o'
  end.

(** The engine's JSON answer: [{success, result, error}]. *)
Record ReplyData := mkReply {
  success : bool;
  result : option DataURL;
  errorField : option string }.

(** How an awaited transform [fetch] settles: the promise rejects with a
    message, or a response arrives with [ok], [status] and a body that parses
    ([inl]) or makes [response.json()] reject ([inr]). *)
Inductive FetchOutcome :=
| Rejected (message : string)
| Responded (ok : bool) (status : Z) (json : ReplyData + string).

Inductive HealthOutcome :=
| HealthRejected
| HealthResponded (ok : bool).

End Browser.

(** ** The component [App] of [src/myapp/src/App.jsx] *)

Module App.
Import Canvas2D Browser.

Definition API_URL : string := "http://localhost:5000/api".

Inductive Mode := Blur | Inpaint.

Inductive BackendStatus := Checking | Online | Offline.

Definition isOnline (b : BackendStatus) : bool :=
  match b with
  | Online => true
  | _ => false
  end.

(** A callback that waits for the browser.  Image loads carry the [src] they
    were given and what their closure captured: a drawing context obtained
    before the load (named by the [epoch] of its canvas element) or the
    [originalImage] of the render in which the handler was created. *)
Inductive Task :=
| FileRead (f : File)
| UploadImage (src : DataURL)
| PreviewImage (src : option DataURL) (ep : nat)
| RedrawImage (src : option DataURL) (ep : nat)
| ResetImage (src : DataURL)
| ResultImage (src : option DataURL) (captured : option DataURL)
| Transform (rq : Request) (captured : option DataURL)
| Health.

(** The component's state variables and refs, followed by the browser's side:
    [epoch] counts the canvas elements React has mounted and unmounted,
    [pending] holds the callbacks not yet run, in the order they were
    registered, and [sent] records every transform request passed to [fetch],
    most recent first. *)
Record State := mkState {
  image : option DataURL;
  originalImage : option DataURL;
  isDrawing : bool;
  brushSize : Z;
  mode : Mode;
  isProcessing : bool;
  error : option string;
  backendStatus : BackendStatus;
  canvasRef : option Bitmap;
  maskCanvasRef : option Bitmap;
  epoch : nat;
  pending : list Task;
  sent : list Request }.

Definition setImage (v : option DataURL) (s : State) : State :=
  mkState v (originalImage s) (isDrawing s) (brushSize s) (mode s) (isProcessing s)
    (error s) (backendStatus s) (canvasRef s) (maskCanvasRef s) (epoch s) (pending s) (sent s).

Definition setOriginalImage (v : option DataURL) (s : State) : State :=
  mkState (image s) v (isDrawing s) (brushSize s) (mode s) (isProcessing s)
    (error s) (backendStatus s) (canvasRef s) (maskCanvasRef s) (epoch s) (pending s) (sent s).

Definition setIsDrawing (v : bool) (s : State) : State :=
  mkState (image s) (originalImage s) v (brushSize s) (mode s) (isProcessing s)
    (error s) (backendStatus s) (canvasRef s) (maskCanvasRef s) (epoch s) (pending s) (sent s).

Definition setBrushSize (v : Z) (s : State) : State :=
  mkState (image s) (originalImage s) (isDrawing s) v (mode s) (isProcessing s)
    (error s) (backendStatus s) (canvasRef s) (maskCanvasRef s) (epoch s) (pending s) (sent s).

Definition setMode (v : Mode) (s : State) : State :=
  mkState (image s) (originalImage s) (isDrawing s) (brushSize s) v (isProcessing s)
    (error s) (backendStatus s) (canvasRef s) (maskCanvasRef s) (epoch s) (pending s) (sent s).

Definition setIsProcessing (v : bool) (s : State) : State :=
  mkState (image s) (originalImage s) (isDrawing s) (brushSize s) (mode s) v
    (error s) (backendStatus s) (canvasRef s) (maskCanvasRef s) (epoch s) (pending s) (sent s).

Definition setError (v : option string) (s : State) : State :=
  mkState (image s) (originalImage s) (isDrawing s) (brushSize s) (mode s) (isProcessing s)
    v (backendStatus s) (canvasRef s) (maskCanvasRef s) (epoch s) (pending s) (sent s).

Definition setBackendStatus (v : BackendStatus) (s : State) : State :=
  mkState (image s) (originalImage s) (isDrawing s) (brushSize s) (mode s) (isProcessing s)
    (error s) v (canvasRef s) (maskCanvasRef s) (epoch s) (pending s) (sent s).

(** Drawing on the visible canvas and on the mask canvas. *)
Definition putCanvas (c : Bitmap) (s : State) : State :=
  mkState (image s) (originalImage s) (isDrawing s) (brushSize s) (mode s) (isProcessing s)
    (error s) (backendStatus s) (Some c) (maskCanvasRef s) (epoch s) (pending s) (sent s).

Definition putMask (m : Bitmap) (s : State) : State :=
  mkState (image s) (originalImage s) (isDrawing s) (brushSize s) (mode s) (isProcessing s)
    (error s) (backendStatus s) (canvasRef s) (Some m) (epoch s) (pending s) (sent s).

Definition setRefs (c m : option Bitmap) (ep : nat) (s : State) : State :=
  mkState (image s) (originalImage s) (isDrawing s) (brushSize s) (mode s) (isProcessing s)
    (error s) (backendStatus s) c m ep (pending s) (sent s).

Definition setPending (l : list Task) (s : State) : State :=
  mkState (image s) (originalImage s) (isDrawing s) (brushSize s) (mode s) (isProcessing s)
    (error s) (backendStatus s) (canvasRef s) (maskCanvasRef s) (epoch s) l (sent s).

Definition addTask (t : Task) (s : State) : State := setPending (pending s ++ [t]) s.

Definition send (rq : Request) (s : State) : State :=
  mkState (image s) (originalImage s) (isDrawing s) (brushSize s) (mode s) (isProcessing s)
    (error s) (backendStatus s) (canvasRef s) (maskCanvasRef s) (epoch s) (pending s)
    (rq :: sent s).

(** The first render: [useState] and [useRef] initial values; the mount effect
    has called [checkBackendHealth]. *)
Definition init : State :=
  mkState None None false 20 Blur false None Checking None None 0 [Health] [].

(** What React commits after a handler: the two canvases exist exactly in the
    editor branch of the JSX, [image] not null. *)
Definition render (s : State) : State :=
  match image s, canvasRef s with
  | None, Some _ => setRefs None None (S (epoch s)) s
  | Some _, None => setRefs (Some freshCanvas) (Some freshCanvas) (S (epoch s)) s
  | _, _ => s
  end.

Definition editorShown (s : State) : bool :=
  match image s with
  | Some _ => true
  | None => false
  end.

(** [checkBackendHealth] up to its [await]. *)
Definition checkBackendHealth (s : State) : State := addTask Health s.

Definition healthSettled (o : HealthOutcome) (s : State) : State :=
  match o with
  | HealthResponded true => setError None (setBackendStatus Online s)
  | HealthResponded false =>
      setError (Some "Backend is not responding correctly") (setBackendStatus Offline s)
  | HealthRejected =>
      setError (Some "Cannot connect to backend. Make sure it's running on port 5000")
        (setBackendStatus Offline s)
  end.

Definition maxFileSize : Z := 10 * 1024 * 1024.

(** [handleImageUpload] up to [reader.readAsDataURL(file)]. *)
Definition handleImageUpload (file : option File) (s : State) : State :=
  match file with
  | None => s
  | Some f =>
      if negb (String.prefix "image/" (ftype f))
      then setError (Some "Please upload a valid image file") s
      else if fsize f >? maxFileSize
      then setError (Some "Image size should be less than 10MB") s
      else addTask (FileRead f) s
  end.

(** [reader.onload] and [reader.onerror]. *)
Definition fileReadDone (f : File) (s : State) : State :=
  match fresult f with
  | Some u => addTask (UploadImage u) s
  | None => setError (Some "Failed to read file") s
  end.

(** [img.onload] and [img.onerror] of [handleImageUpload]. *)
Definition uploadImageDone (u : DataURL) (s : State) : State :=
  match decode u with
  | None => setError (Some "Failed to load image") s
  | Some img =>
      match canvasRef s, maskCanvasRef s with
      | Some c, Some m =>
          let c1 := setHeight (height img) (setWidth (width img) c) in
          let m1 := setHeight (height img) (setWidth (width img) m) in
          let c2 := drawImage img c1 in
          let m2 := fillRectAll black m1 in
          setError None (setOriginalImage (Some u) (setImage (Some u) (putMask m2 (putCanvas c2 s))))
      | _, _ => s
      end
  end.

(** [getMousePos], in the double arithmetic of the code. *)
Definition getMousePos (e : MouseEvent) (s : State) : float * float :=
  match canvasRef s with
  | None => (0%float, 0%float)
  | Some c =>
      let scaleX := (numberOfPos (width c) / rectWidth e)%float in
      let scaleY := (numberOfPos (height c) / rectHeight e)%float in
      (((clientX e - rectLeft e) * scaleX)%float, ((clientY e - rectTop e) * scaleY)%float)
  end.

(** The preview loop of [draw]'s [img.onload]: every fourth byte of the mask's
    image data is a red channel; where it is positive the canvas pixel gets a
    red rectangle at [globalAlpha = 0.4]. *)
Definition overlayLoop (m c : Bitmap) : Bitmap :=
  let data := getImageData m in
  let mw := Pos.to_nat (width m) in
  fold_left
    (fun cv k =>
       let i := (4 * k)%nat in
       if nth i data 0 >? 0
       then fillRect1 (withAlpha alpha40 redColour) ((i / 4) mod mw)%nat ((i / 4) / mw)%nat cv
       else cv)
    (seq 0 (length data / 4)) c.

Section Client.

(** The browser's rasteriser: [arcCoverage x y r w h j] is the coverage, in
    255ths, of pixel [j] of a [w] by [h] canvas by the disc of radius [r]
    centred at [(x, y)]. *)
Variable arcCoverage : float -> float -> Z -> positive -> positive -> nat -> Z.

(** [beginPath(); arc(x, y, r, 0, Math.PI * 2); fill()] in white on the mask:
    [arc] adds nothing to the path when a coordinate is not finite. *)
Definition fillDisc (pos : float * float) (r : Z) (m : Bitmap) : Bitmap :=
  let (x, y) := pos in
  if PrimFloat.is_finite x && PrimFloat.is_finite y
  then fillPath (arcCoverage x y r (width m) (height m)) m
  else m.

(** [draw(e)]; [down] is [e.type === 'mousedown']. *)
Definition draw (down : bool) (e : MouseEvent) (s : State) : State :=
  if negb (isDrawing s) && negb down then s
  else
    let pos := getMousePos e s in
    match maskCanvasRef s, canvasRef s with
    | Some m, Some _ =>
        if brushSize s <? 0 then s
        else addTask (PreviewImage (originalImage s) (epoch s))
               (putMask (fillDisc pos (brushSize s) m) s)
    | _, _ => s
    end.

Definition startDrawing (e : MouseEvent) (s : State) : State :=
  setIsDrawing true (draw true e s).

Definition stopDrawing (s : State) : State := setIsDrawing false s.

(** [img.onload] of [draw]. *)
Definition previewImageDone (src : option DataURL) (ep : nat) (s : State) : State :=
  if negb (ep =? epoch s)%nat then s
  else
    match decodeSrc src, canvasRef s, maskCanvasRef s with
    | Some img, Some c, Some m => putCanvas (overlayLoop m (drawImage img c)) s
    | _, _, _ => s
    end.

(** [clearMask], with the [originalImage] its closure holds. *)
Definition clearMask (captured : option DataURL) (s : State) : State :=
  match maskCanvasRef s, canvasRef s with
  | Some m, Some _ =>
      addTask (RedrawImage captured (epoch s)) (putMask (fillRectAll black m) s)
  | _, _ => s
  end.

(** [img.onload] of [clearMask]. *)
Definition redrawImageDone (src : option DataURL) (ep : nat) (s : State) : State :=
  if negb (ep =? epoch s)%nat then s
  else
    match decodeSrc src, canvasRef s with
    | Some img, Some c => putCanvas (drawImage img c) s
    | _, _ => s
    end.

(** [resetImage]: the call of [clearMask] is the one of the same render, whose
    [originalImage] is not the value just given to [setOriginalImage]. *)
Definition resetImage (s : State) : State :=
  match image s with
  | None => s
  | Some u => clearMask (originalImage s) (addTask (ResetImage u) (setOriginalImage (Some u) s))
  end.

(** [img.onload] of [resetImage]. *)
Definition resetImageDone (u : DataURL) (s : State) : State :=
  match decode u, canvasRef s with
  | Some img, Some c => putCanvas (drawImage img c) s
  | _, _ => s
  end.

Definition endpoint (m : Mode) : string :=
  match m with
  | Blur => "/blur"
  | Inpaint => "/inpaint"
  end.

Definition jsonOfSrc (v : option DataURL) : JValue :=
  match v with
  | Some u => JString u
  | None => JNull
  end.

(** The argument of [fetch] in [applyProcessing]. *)
Definition transformRequest (m : Mode) (orig : option DataURL) (maskData : DataURL) : Request :=
  mkRequest (API_URL ++ endpoint m) "POST" [("Content-Type", "application/json")] (Some "cors")
    [("image", jsonOfSrc orig); ("mask", JString maskData); ("kernel_size", JNumber 35)].

(** The [catch] and [finally] blocks of [applyProcessing]. *)
Definition processingFailed (message : string) (s : State) : State :=
  setIsProcessing false
    (setBackendStatus Offline (setError (Some ("Failed to process: " ++ message)) s)).

(** [applyProcessing] up to [await fetch(...)]. *)
Definition applyProcessing (s : State) : State :=
  if negb (isOnline (backendStatus s))
  then setError (Some "Backend is offline. Please start the backend server first.") s
  else
    let s1 := setError None (setIsProcessing true s) in
    match maskCanvasRef s with
    | None => processingFailed "Mask canvas not found" s1
    | Some m =>
        let maskData := toDataURL m in
        let hasContent := existsb (fun pixel => pixel >? 0) (getImageData m) in
        if negb hasContent
        then setIsProcessing false
               (setError (Some "Please draw on the image first to select an area") s1)
        else
          let rq := transformRequest (mode s) (originalImage s) maskData in
          addTask (Transform rq (originalImage s)) (send rq s1)
    end.

(** [data.error || 'Processing failed']. *)
Definition errorOrDefault (e : option string) : string :=
  match e with
  | Some EmptyString => "Processing failed"
  | Some m => m
  | None => "Processing failed"
  end.

(** [applyProcessing] from the point where the awaited [fetch] settles. *)
Definition transformSettled (o : FetchOutcome) (captured : option DataURL) (s : State) : State :=
  match o with
  | Rejected message => processingFailed message s
  | Responded false status _ =>
      processingFailed ("Server error: " ++ NilZero.string_of_int (Z.to_int status)) s
  | Responded true _ (inr message) => processingFailed message s
  | Responded true _ (inl data) =>
      if success data
      then setIsProcessing false (addTask (ResultImage (result data) captured) s)
      else setIsProcessing false (setError (Some (errorOrDefault (errorField data))) s)
  end.

(** [img.onload] and [img.onerror] of [applyProcessing]; [clearMask] is the one
    of the render in which Apply was clicked. *)
Definition resultImageDone (src captured : option DataURL) (s : State) : State :=
  match decodeSrc src with
  | None => setError (Some "Failed to load processed image") s
  | Some img =>
      match canvasRef s with
      | None => s
      | Some c => clearMask captured (setOriginalImage src (putCanvas (drawImage img c) s))
      end
  end.

Definition newImage (s : State) : State :=
  setError None (setOriginalImage None (setImage None s)).

Definition decreaseBrush (s : State) : State := setBrushSize (Z.max 5 (brushSize s - 5)) s.

Definition increaseBrush (s : State) : State := setBrushSize (Z.min 100 (brushSize s + 5)) s.

(** What can happen to the component: the user's actions on the controls the
    JSX renders, and the browser running a pending callback. *)
Inductive Event :=
| ChangeFile (file : option File)
| MouseDown (e : MouseEvent)
| MouseMove (e : MouseEvent)
| MouseUp
| MouseLeave
| ClickBlur
| ClickRemove
| ClickMinus
| ClickPlus
| ClickApply
| ClickClearMask
| ClickReset
| ClickDownload
| ClickNewImage
| ClickDismissError
| ClickRetry
| Fire (n : nat)
| TransformSettles (n : nat) (o : FetchOutcome)
| HealthSettles (n : nat) (o : HealthOutcome).

Fixpoint remove_nth {A} (n : nat) (l : list A) : list A :=
  match n, l with
  | _, [] => []
  | O, _ :: l' => l'
  | S n', a :: l' => a :: remove_nth n' l'
  end.

Definition runTask (t : Task) (s : State) : State :=
  match t with
  | FileRead f => fileReadDone f s
  | UploadImage u => uploadImageDone u s
  | PreviewImage src ep => previewImageDone src ep s
  | RedrawImage src ep => redrawImageDone src ep s
  | ResetImage u => resetImageDone u s
  | ResultImage src captured => resultImageDone src captured s
  | Transform _ _ => s
  | Health => s
  end.

Definition isLocal (t : Task) : bool :=
  match t with
  | Transform _ _ => false
  | Health => false
  | _ => true
  end.

(** One event on the rendered state [s], before React re-renders.  A control
    that is not rendered, or a disabled button, receives no event. *)
Definition dispatch (ev : Event) (s : State) : State :=
  match ev with
  | ChangeFile file => if editorShown s then s else handleImageUpload file s
  | MouseDown e => if editorShown s then startDrawing e s else s
  | MouseMove e => if editorShown s then draw false e s else s
  | MouseUp => if editorShown s then stopDrawing s else s
  | MouseLeave => if editorShown s then stopDrawing s else s
  | ClickBlur => if editorShown s then setMode Blur s else s
  | ClickRemove => if editorShown s then setMode Inpaint s else s
  | ClickMinus => if editorShown s then decreaseBrush s else s
  | ClickPlus => if editorShown s then increaseBrush s else s
  | ClickApply =>
      if editorShown s && negb (isProcessing s || negb (isOnline (backendStatus s)))
      then applyProcessing s else s
  | ClickClearMask => if editorShown s then clearMask (originalImage s) s else s
  | ClickReset => if editorShown s then resetImage s else s
  | ClickDownload => s
  | ClickNewImage => if editorShown s then newImage s else s
  | ClickDismissError =>
      match error s with
      | Some _ => setError None s
      | None => s
      end
  | ClickRetry =>
      match backendStatus s with
      | Offline => checkBackendHealth s
      | _ => s
      end
  | Fire n =>
      match nth_error (pending s) n with
      | Some t => if isLocal t then runTask t (setPending (remove_nth n (pending s)) s) else s
      | None => s
      end
  | TransformSettles n o =>
      match nth_error (pending s) n with
      | Some (Transform _ captured) =>
          transformSettled o captured (setPending (remove_nth n (pending s)) s)
      | _ => s
      end
  | HealthSettles n o =>
      match nth_error (pending s) n with
      | Some Health => healthSettled o (setPending (remove_nth n (pending s)) s)
      | _ => s
      end
  end.

Definition handle (s : State) (ev : Event) : State := render (dispatch ev s).

Definition run (s : State) (evs : list Event) : State := fold_left handle evs s.

(** One paint event followed by the preview callback it registers. *)
Definition stroke (e : MouseEvent) (s : State) : State :=
  previewImageDone (originalImage s) (epoch s) (draw true e s).

(** A sequence of strokes. *)
Definition strokes (es : list MouseEvent) (s : State) : State :=
  fold_left (fun st e => stroke e st) es s.

End Client.

(** The preview the specification describes: the working image with the
    highlight composited over exactly the pixels whose mask value is positive. *)
Definition expectedPreview (img m : Bitmap) : Bitmap :=
  mkBitmap (width img) (height img)
    (mapi (fun j p => if red (nth j (pixels m) transparent) >? 0
                      then over (withAlpha alpha40 redColour) p else p)
          (pixels img)).

(** A mask canvas as the black fill and white strokes leave it: opaque, with
    its red channel in range. *)
Definition maskReady (m : Bitmap) : Prop :=
  Forall (fun p => opaque p /\ 0 <= red p <= 255) (pixels m).

(** What a stroke needs and keeps: the working image [u], decoding to [img],
    the brush radius [r], and canvases of the working image's size, the mask
    opaque. *)
Definition strokeReady (u : DataURL) (img : Bitmap) (r : Z) (s : State) : Prop :=
  originalImage s = Some u /\ brushSize s = r /\
  exists c m,
    canvasRef s = Some c /\ maskCanvasRef s = Some m /\
    wf_bitmap c /\ wf_bitmap m /\
    width c = width img /\ height c = height img /\
    width m = width img /\ height m = height img /\ maskReady m.

(** The transform requests that have been passed to [fetch] and have not
    settled yet. *)
Definition isTransform (t : Task) : bool :=
  match t with
  | Transform _ _ => true
  | _ => false
  end.

Definition inFlight (s : State) : list Task := filter isTransform (pending s).

(** At most one transform request is outstanding, and while one is,
    [isProcessing] is set. *)
Definition singleFlight (s : State) : Prop :=
  (length (inFlight s) <= 1)%nat /\ (inFlight s <> [] -> isProcessing s = true).

(** The callbacks an upload and the mount effect register. *)
Definition uploading (t : Task) : Prop :=
  match t with
  | FileRead _ | UploadImage _ | Health => True
  | _ => False
  end.

(** The upload branch of the JSX is shown and has been ever since the first
    render: no image, no canvas element. *)
Definition neverMounted (s : State) : Prop :=
  image s = None /\ canvasRef s = None /\ maskCanvasRef s = None /\
  Forall uploading (pending s).

(** The selection value of a mask pixel is its red channel, the one the
    preview loop of [draw] tests; a mask is all-zero when every value is 0. *)
Definition allZero (m : Bitmap) : Prop := Forall (fun p => red p = 0) (pixels m).

(** Pixel [j] of the mask is selected: the test [imageData.data[i] > 0] of the
    preview loop. *)
Definition selected (m : Bitmap) (j : nat) : bool :=
  red (nth j (pixels m) transparent) >? 0.

(** The value of the state variable [mode]. *)
Definition modeName (m : Mode) : string :=
  match m with
  | Blur => "blur"
  | Inpaint => "inpaint"
  end.

(** [downloadImage]: the [download] and [href] attributes of the link it
    creates and clicks, [now] being [Date.now()]; it returns before that when
    the canvas ref is [null]. *)
Definition downloadImage (now : Z) (s : State) : option (string * DataURL) :=
  match canvasRef s with
  | None => None
  | Some c =>
      Some (modeName (mode s) ++ "-processed-" ++ NilZero.string_of_int (Z.to_int now) ++ ".png",
            toDataURL c)
  end.

(** The [error.message] that reaches the [catch] block of [applyProcessing]
    when the awaited [fetch] settles with [o]; [None] when nothing is thrown. *)
Definition failureMessage (o : FetchOutcome) : option string :=
  match o with
  | Rejected message => Some message
  | Responded false status _ =>
      Some ("Server error: " ++ NilZero.string_of_int (Z.to_int status))
  | Responded true _ (inr message) => Some message
  | Responded true _ (inl _) => None
  end.

(** A state as React has committed it: rendering again changes nothing. *)
Definition rendered (s : State) : Prop := render s = s.

(** The stored images and the two canvases agree: either nothing is loaded and
    no canvas is mounted, or both images are set and both canvases are mounted,
    of one size, the mask opaque. *)
Definition consistent (s : State) : Prop :=
  match image s, originalImage s, canvasRef s, maskCanvasRef s with
  | None, None, None, None => True
  | Some _, Some _, Some c, Some m =>
      wf_bitmap c /\ wf_bitmap m /\
      width c = width m /\ height c = height m /\ maskReady m
  | _, _, _, _ => False
  end.

End App.

(** ** The component [BlurTool] of [src/unnamed/part_001]

    The earlier revision of the same component: no backend status, no error
    banner (it calls [alert]), no guards on the refs (a [null] ref makes the
    handler throw), and the mask is cleared with [clearRect].  Modelled are
    [applyProcessing] up to its request, [draw] and its preview callback. *)

Module BlurTool.
Import Canvas2D Browser.

Definition API_URL : string := "http://localhost:5000/api".

Record State := mkState {
  image : option DataURL;
  originalImage : option DataURL;
  isDrawing : bool;
  brushSize : Z;
  mode : App.Mode;
  isProcessing : bool;
  canvasRef : option Bitmap;
  maskCanvasRef : option Bitmap;
  epoch : nat;
  pending : list App.Task;
  sent : list Request;
  alerts : list string }.

Definition putCanvas (c : Bitmap) (s : State) : State :=
  mkState (image s) (originalImage s) (isDrawing s) (brushSize s) (mode s) (isProcessing s)
    (Some c) (maskCanvasRef s) (epoch s) (pending s) (sent s) (alerts s).

Definition putMask (m : Bitmap) (s : State) : State :=
  mkState (image s) (originalImage s) (isDrawing s) (brushSize s) (mode s) (isProcessing s)
    (canvasRef s) (Some m) (epoch s) (pending s) (sent s) (alerts s).

Definition setIsProcessing (v : bool) (s : State) : State :=
  mkState (image s) (originalImage s) (isDrawing s) (brushSize s) (mode s) v
    (canvasRef s) (maskCanvasRef s) (epoch s) (pending s) (sent s) (alerts s).

Definition addTask (t : App.Task) (s : State) : State :=
  mkState (image s) (originalImage s) (isDrawing s) (brushSize s) (mode s) (isProcessing s)
    (canvasRef s) (maskCanvasRef s) (epoch s) (pending s ++ [t]) (sent s) (alerts s).

Definition send (rq : Request) (s : State) : State :=
  mkState (image s) (originalImage s) (isDrawing s) (brushSize s) (mode s) (isProcessing s)
    (canvasRef s) (maskCanvasRef s) (epoch s) (pending s) (rq :: sent s) (alerts s).

Definition alert (m : string) (s : State) : State :=
  mkState (image s) (originalImage s) (isDrawing s) (brushSize s) (mode s) (isProcessing s)
    (canvasRef s) (maskCanvasRef s) (epoch s) (pending s) (sent s) (m :: alerts s).

(** The argument of [fetch] in [applyProcessing]. *)
Definition transformRequest (m : App.Mode) (orig : option DataURL) (maskData : DataURL)
  : Request :=
  mkRequest (API_URL ++ App.endpoint m) "POST" [("Content-Type", "application/json")] None
    [("image", App.jsonOfSrc orig); ("mask", JString maskData); ("kernel_size", JNumber 35)].

(** [applyProcessing] up to [await fetch(...)]; with a [null] ref
    [canvas.toDataURL] throws and the [catch] block alerts. *)
Definition applyProcessing (s : State) : State :=
  match canvasRef s, maskCanvasRef s with
  | Some _, Some m =>
      let rq := transformRequest (mode s) (originalImage s) (toDataURL m) in
      addTask (App.Transform rq (originalImage s)) (send rq (setIsProcessing true s))
  | _, _ =>
      setIsProcessing false
        (alert "Failed to connect to backend. Make sure the API is running on port 5000." s)
  end.

(** [getMousePos] on a mounted canvas, in the double arithmetic of the code. *)
Definition getMousePos (e : MouseEvent) (c : Bitmap) : float * float :=
  let scaleX := (numberOfPos (width c) / rectWidth e)%float in
  let scaleY := (numberOfPos (height c) / rectHeight e)%float in
  (((clientX e - rectLeft e) * scaleX)%float, ((clientY e - rectTop e) * scaleY)%float).

Section Client.

Variable arcCoverage : float -> float -> Z -> positive -> positive -> nat -> Z.

(** [draw(e)]; [down] is [e.type === 'mousedown']. *)
Definition draw (down : bool) (e : MouseEvent) (s : State) : State :=
  if negb (isDrawing s) && negb down then s
  else
    match canvasRef s, maskCanvasRef s with
    | Some c, Some m =>
        if brushSize s <? 0 then s
        else addTask (App.PreviewImage (originalImage s) (epoch s))
               (putMask (App.fillDisc arcCoverage (getMousePos e c) (brushSize s) m) s)
    | _, _ => s
    end.

End Client.

(** [img.onload] of [draw]; the fill style [rgba(255, 0, 0, 0.4)] is the colour
    [App] obtains from [red] at [globalAlpha = 0.4], so the loop is the same. *)
Definition previewImageDone (src : option DataURL) (ep : nat) (s : State) : State :=
  if negb (ep =? epoch s)%nat then s
  else
    match decodeSrc src, canvasRef s, maskCanvasRef s with
    | Some img, Some c, Some m => putCanvas (App.overlayLoop m (drawImage img c)) s
    | _, _, _ => s
    end.

Definition setImage (v : option DataURL) (s : State) : State :=
  mkState v (originalImage s) (isDrawing s) (brushSize s) (mode s) (isProcessing s)
    (canvasRef s) (maskCanvasRef s) (epoch s) (pending s) (sent s) (alerts s).

Definition setOriginalImage (v : option DataURL) (s : State) : State :=
  mkState (image s) v (isDrawing s) (brushSize s) (mode s) (isProcessing s)
    (canvasRef s) (maskCanvasRef s) (epoch s) (pending s) (sent s) (alerts s).

(** [handleImageUpload] up to [reader.readAsDataURL(file)]: no validation. *)
Definition handleImageUpload (file : option File) (s : State) : State :=
  match file with
  | None => s
  | Some f => addTask (App.FileRead f) s
  end.

(** [reader.onload]; there is no [reader.onerror]. *)
Definition fileReadDone (f : File) (s : State) : State :=
  match fresult f with
  | Some u => addTask (App.UploadImage u) s
  | None => s
  end.

(** [img.onload] of [handleImageUpload]; there is no [img.onerror], and with a
    [null] ref [getContext] throws before anything is changed. *)
Definition uploadImageDone (u : DataURL) (s : State) : State :=
  match decode u with
  | None => s
  | Some img =>
      match canvasRef s, maskCanvasRef s with
      | Some c, Some m =>
          let c1 := setHeight (height img) (setWidth (width img) c) in
          let m1 := setHeight (height img) (setWidth (width img) m) in
          let c2 := drawImage img c1 in
          let m2 := clearRectAll m1 in
          setOriginalImage (Some u) (setImage (Some u) (putMask m2 (putCanvas c2 s)))
      | _, _ => s
      end
  end.

(** [applyProcessing] from the point where the awaited [fetch] settles:
    [response.ok] is not looked at; ['Error: ' + data.error] prints a missing
    field as [undefined]. *)
Definition transformSettled (o : FetchOutcome) (captured : option DataURL) (s : State) : State :=
  match o with
  | Responded _ _ (inl data) =>
      if success data
      then setIsProcessing false (addTask (App.ResultImage (result data) captured) s)
      else setIsProcessing false
             (alert ("Error: " ++ match errorField data with
                                  | Some m => m
                                  | None => "undefined"
                                  end) s)
  | _ =>
      setIsProcessing false
        (alert "Failed to connect to backend. Make sure the API is running on port 5000." s)
  end.

(** A pixel of the mask canvas as [clearRect] and the white strokes leave it:
    untouched, or white with some alpha. *)
Definition whiteOrClear (p : Pixel) : Prop :=
  p = transparent \/
  (red p = 255 /\ green p = 255 /\ blue p = 255 /\ 1 <= alpha p <= 255).

End BlurTool.

(** ** The blur mode of the Region Transform Engine *)

Module Engine.

(** Modelled from the spec: the engine's code is not among the sources.  One
    channel of an image or a mask, [iw] by [ih]; [px x y] is the intensity at
    column [x], row [y], and outside the bounds what the blur reads there, the
    border extension, which the specification leaves open. *)
Record Image := mkImage { iw : Z; ih : Z; px : Z -> Z -> Z }.

(** Modelled from the spec: the output of a transform, intensities before any
    rounding. *)
Record Output := mkOutput { ow : Z; oh : Z; opx : Z -> Z -> Q }.

(** Modelled from the spec: the structured failures of section 7 that the blur
    mode can report. *)
Inductive EngineError := DimensionMismatch | InvalidParameter.

(** Modelled from the spec: "even values are coerced up by one rather than
    rejected"; the kernel size must then be at least 3. *)
Definition coerceKernel (k : Z) : Z := if Z.even k then k + 1 else k.

(** Modelled from the spec: a kernel "of the requested size" [k] reaches
    [(k - 1) / 2] pixels to each side. *)
Definition blurRadius (k : Z) : nat := Z.to_nat ((k - 1) / 2).

(** Modelled from the spec: the feather's radius is "proportional to
    kernelSize, e.g. kernelSize/3". *)
Definition featherRadius (k : Z) : nat := Z.to_nat (k / 3).

(** Modelled from the spec: [lerp(a, b, t) = a*(1-t) + b*t] of the glossary. *)
Definition lerp (a b t : Q) : Q := (a * (1 - t) + b * t)%Q.

(** Modelled from the spec: the columns, or rows, of an image with [n] of
    them. *)
Definition range (n : Z) : list Z := map Z.of_nat (seq 0 (Z.to_nat n)).

(** Modelled from the spec: a mask is "purely binary" when its values are only
    0 or 255. *)
Definition isBinary (m : Image) : bool :=
  forallb (fun y => forallb (fun x => (px m x y =? 0) || (px m x y =? 255)) (range (iw m)))
          (range (ih m)).

(** Modelled from the spec: a mask with a single hard-edged disc of radius [r]
    centred at [(cx, cy)]. *)
Definition inDisc (cx cy r x y : Z) : bool :=
  (x - cx) * (x - cx) + (y - cy) * (y - cy) <=? r * r.

(** Modelled from the spec: the value of that mask, 255 inside the disc and 0
    outside ("hard-edged"). *)
Definition discValue (cx cy r x y : Z) : Z := if inDisc cx cy r x y then 255 else 0.

Section Kernel.

(** Modelled from the spec: the kernel family in use, "Gaussian (or box)":
    [weight r i] is the weight, up to the common normalisation, of the sample
    at distance [i] from the centre in the kernel of radius [r]. *)
Variable weight : nat -> Z -> Z.

(** Modelled from the spec: one axis of the blur, the sum of
    [weight r i * g i] for [i] from [-n] to [n]. *)
Fixpoint wsum (r n : nat) (g : Z -> Z) : Z :=
  match n with
  | O => weight r 0 * g 0
  | S n' =>
      wsum r n' g + weight r (Z.of_nat n) * g (Z.of_nat n)
      + weight r (- Z.of_nat n) * g (- Z.of_nat n)
  end.

(** Modelled from the spec: the normalisation of the blur, the sum of all
    weights of the two-dimensional kernel of radius [r]. *)
Definition total (r : nat) : Z := wsum r r (fun _ => wsum r r (fun _ => 1)).

(** Modelled from the spec: the separable blur of radius [r] of [f] at [(x, y)],
    before division by [total r]. *)
Definition conv (r : nat) (f : Z -> Z -> Z) (x y : Z) : Z :=
  wsum r r (fun j => wsum r r (fun i => f (x + i) (y + j))).

(** Modelled from the spec: "a globally blurred copy of the image using a
    Gaussian (or box) kernel of the requested size". *)
Definition blurred (img : Image) (k : Z) (x y : Z) : Q :=
  (inject_Z (conv (blurRadius k) (px img) x y) / inject_Z (total (blurRadius k)))%Q.

(** Modelled from the spec: [alpha = mask_value / 255], the mask being
    feathered first ("a small Gaussian blur of the mask itself") when it is
    purely binary. *)
Definition alphaAt (mask : Image) (k : Z) (x y : Z) : Q :=
  if isBinary mask
  then (inject_Z (conv (featherRadius k) (px mask) x y)
        / inject_Z (255 * total (featherRadius k)))%Q
  else (inject_Z (px mask x y) / 255)%Q.

(** Modelled from the spec: blur mode, with its input validation. *)
Definition blurMode (img mask : Image) (kernelSize : Z) : Output + EngineError :=
  if negb ((iw img =? iw mask) && (ih img =? ih mask)) then inr DimensionMismatch
  else
    let k := coerceKernel kernelSize in
    if k <? 3 then inr InvalidParameter
    else
      inl (mkOutput (iw img) (ih img)
             (fun x y =>
                lerp (inject_Z (px img x y)) (blurred img k x y) (alphaAt mask k x y))).

End Kernel.

(** Modelled from the spec: what the Gaussian and the box kernel of radius [r]
    have in common: positive weights, symmetric about the centre, not
    increasing with the distance from it. *)
Definition goodKernel (weight : nat -> Z -> Z) (r : nat) : Prop :=
  (forall i, - Z.of_nat r <= i <= Z.of_nat r -> 0 < weight r i) /\
  (forall i, weight r (- i) = weight r i) /\
  (forall i, 0 <= i < Z.of_nat r -> weight r (i + 1) <= weight r i).

(** Modelled from the spec: the box kernel, every sample has the same
    weight. *)
Definition boxWeight (r : nat) (i : Z) : Z := 1.

(** Modelled from the spec: a kernel falling off linearly from the centre; at
    radius 1 it is [1, 2, 1], the Gaussian kernel of size 3 in integers. *)
Definition triangleWeight (r : nat) (i : Z) : Z := Z.of_nat r + 1 - Z.abs i.

(** Modelled from the spec: a row profile that does not increase with the
    distance from column [c], as a row of a disc does. *)
Definition radial (c : Z) (d : Z -> Z) : Prop :=
  forall t t', Z.abs (t - c) <= Z.abs (t' - c) -> d t' <= d t.

(** Modelled from the spec: the [w] by [h] mask with one disc, read as 0
    outside the disc also beyond the border. *)
Definition discMask (w h cx cy r : Z) : Image := mkImage w h (discValue cx cy r).

(** Modelled from the spec: an input image, vertical stripes one pixel wide. *)
Definition stripes (w h : Z) : Image :=
  mkImage w h (fun x _ => if Z.even x then 0 else 255).

(** Modelled from the spec: an input image, horizontal bands one pixel high. *)
Definition bands (w h : Z) : Image :=
  mkImage w h (fun _ y => if Z.even y then 0 else 255).

End Engine.

(** ** Concrete inputs *)

Module Scenario.
Import Canvas2D Browser App.

(** A rasteriser without anti-aliasing: a pixel is covered when its centre lies
    in the disc. *)
Definition hardDisc (x y : float) (r : Z) (w h : positive) (j : nat) : Z :=
  let px := (numberOfN (N.of_nat (j mod Pos.to_nat w)) + 0.5)%float in
  let py := (numberOfN (N.of_nat (j / Pos.to_nat w)) + 0.5)%float in
  if ((px - x) * (px - x) + (py - y) * (py - y) <=? numberOfN (Z.to_N (r * r)))%float
  then 255 else 0.

(** Three one-pixel images: two opaque ones and a fully transparent one. *)
Definition imgA : Bitmap := mkBitmap 1 1 [mkPixel 10 20 30 255].
Definition imgB : Bitmap := mkBitmap 1 1 [mkPixel 200 100 50 255].
Definition imgT : Bitmap := mkBitmap 1 1 [transparent].

Definition pngFile (b : Bitmap) : File := mkFile "image/png" 1024 (Some (DataImage b)).

(** An editor state: [image] is the first upload [first], the working image is
    [working], the canvas shows [shown], the backend is reachable and nothing
    is pending.  The handlers of the editor are written for such states; none
    is reached from the first render (lemma [image_never_loaded]), so they
    serve as inputs of the handlers, not as steps of a session. *)
Definition editing (first working shown mask : Bitmap) : State :=
  mkState (Some (DataImage first)) (Some (DataImage working)) false 20 Blur false None Online
    (Some shown) (Some mask) 1 [] [].

Definition blackMask : Bitmap := mkBitmap 1 1 [black].

(** A press at the centre of the single pixel, the canvas displayed at its
    natural size. *)
Definition press : MouseEvent := mkMouseEvent 0.5 0.5 0 0 1 1.

Definition whiteMask : Bitmap := mkBitmap 1 1 [white].

(** An editor state in which Apply has just sent its request. *)
Definition awaiting : State :=
  handle hardDisc (editing imgA imgA imgA whiteMask) ClickApply.

Definition replyOk : ReplyData := mkReply true (Some (DataImage imgB)) None.

Definition replyFailed : ReplyData := mkReply false None (Some "Could not decode image").

(** An editor state of [BlurTool], both canvases in the document: an input of
    its handlers, as [editing] is of [App]'s. *)
Definition blurEditing (working shown mask : Bitmap) : BlurTool.State :=
  BlurTool.mkState (Some (DataImage working)) (Some (DataImage working)) false 20 Blur false
    (Some shown) (Some mask) 1 [] [] [].

End Scenario.

(** ** Compositing and canvas lemmas *)

Import Canvas2D Browser App Scenario.

Lemma div_round_mul (a b : Z) : 0 < b -> div_round (a * b) b = a.
Proof.
  intros Hb. unfold div_round.
  replace (2 * (a * b) + b) with (b + a * (2 * b)) by ring.
  rewrite Z.div_add by lia. rewrite Z.div_small; lia.
Qed.

(** Opaque black drawn over anything is opaque black. *)
Lemma over_black (d : Pixel) : over black d = black.
Proof.
  unfold over, black. cbn [alpha red green blue].
  replace (255 * 255 + alpha d * (255 - 255)) with 65025 by ring.
  replace (255 * 0 * 255 + red d * alpha d * (255 - 255)) with 0 by ring.
  replace (255 * 0 * 255 + green d * alpha d * (255 - 255)) with 0 by ring.
  replace (255 * 0 * 255 + blue d * alpha d * (255 - 255)) with 0 by ring.
  reflexivity.
Qed.

(** An opaque source replaces the backdrop. *)
Lemma over_opaque (s d : Pixel) : opaque s -> over s d = s.
Proof.
  destruct s as [r g b a]. unfold opaque, over. cbn [alpha red green blue].
  intros ->.
  replace (255 * 255 + alpha d * (255 - 255)) with 65025 by ring.
  replace (255 * r * 255 + red d * alpha d * (255 - 255)) with (r * 65025) by ring.
  replace (255 * g * 255 + green d * alpha d * (255 - 255)) with (g * 65025) by ring.
  replace (255 * b * 255 + blue d * alpha d * (255 - 255)) with (b * 65025) by ring.
  cbn [Z.eqb]. rewrite !div_round_mul by lia. reflexivity.
Qed.

(** A backdrop that is opaque stays opaque. *)
Lemma over_on_opaque (s d : Pixel) : opaque d -> opaque (over s d).
Proof.
  unfold opaque, over. intros ->.
  replace (255 * alpha s + 255 * (255 - alpha s)) with 65025 by ring.
  reflexivity.
Qed.

(** A fully transparent source leaves a visible backdrop alone. *)
Lemma over_transparent (s d : Pixel) : alpha s = 0 -> 0 < alpha d -> over s d = d.
Proof.
  destruct d as [r g b a]. unfold over. cbn [alpha red green blue].
  intros -> Ha.
  replace (255 * 0 + a * (255 - 0)) with (a * 255) by ring.
  replace (255 * red s * 0 + r * a * (255 - 0)) with (r * (a * 255)) by ring.
  replace (255 * green s * 0 + g * a * (255 - 0)) with (g * (a * 255)) by ring.
  replace (255 * blue s * 0 + b * a * (255 - 0)) with (b * (a * 255)) by ring.
  destruct (a * 255 =? 0) eqn:E; [apply Z.eqb_eq in E; lia|].
  rewrite !div_round_mul by lia. reflexivity.
Qed.

Lemma mapi_from_length {A B} (f : nat -> A -> B) (l : list A) (k : nat) :
  length (mapi_from k f l) = length l.
Proof. revert k; induction l as [|a l IH]; intros k; simpl; [reflexivity|now rewrite IH]. Qed.

Lemma mapi_from_nth_error {A B} (f : nat -> A -> B) (l : list A) (k j : nat) :
  nth_error (mapi_from k f l) j = option_map (f (k + j)%nat) (nth_error l j).
Proof.
  revert k j; induction l as [|a l IH]; intros k j.
  - destruct j; reflexivity.
  - destruct j as [|j]; simpl.
    + now rewrite Nat.add_0_r.
    + rewrite IH. now replace (S k + j)%nat with (k + S j)%nat by lia.
Qed.

Lemma mapi_nth_error {A B} (f : nat -> A -> B) (l : list A) (j : nat) :
  nth_error (mapi f l) j = option_map (f j) (nth_error l j).
Proof. unfold mapi. now rewrite mapi_from_nth_error. Qed.

Lemma mapi_length {A B} (f : nat -> A -> B) (l : list A) : length (mapi f l) = length l.
Proof. apply mapi_from_length. Qed.

Lemma nth_error_ext {A} (l1 l2 : list A) :
  (forall j, nth_error l1 j = nth_error l2 j) -> l1 = l2.
Proof.
  revert l2; induction l1 as [|a l1 IH]; intros [|b l2] H.
  - reflexivity.
  - specialize (H 0%nat); discriminate.
  - specialize (H 0%nat); discriminate.
  - f_equal.
    + specialize (H 0%nat). now inversion H.
    + apply IH. intros j. apply (H (S j)).
Qed.

(** Drawing an opaque image on a canvas of the same size shows exactly the
    image, whatever was there. *)
Lemma drawImage_opaque (img c : Bitmap) :
  wf_bitmap img -> wf_bitmap c ->
  width c = width img -> height c = height img ->
  all_opaque img ->
  drawImage img c = img.
Proof.
  intros Wi Wc Ew Eh Op. destruct img as [w h ps], c as [cw ch cs].
  cbn [width height pixels] in *. subst cw ch. unfold wf_bitmap in *.
  cbn [width height pixels] in *. unfold drawImage. cbn [width height pixels].
  f_equal. apply nth_error_ext. intros j. rewrite mapi_nth_error.
  destruct (nth_error cs j) as [d|] eqn:Ed; cbn [option_map].
  - assert (Hj : (j < length cs)%nat) by (apply nth_error_Some; congruence).
    rewrite Wc in Hj. unfold area in Hj. rewrite Pos2Nat.inj_mul in Hj.
    pose proof (Pos2Nat.is_pos w) as Hw.
    assert (Hx : (j mod Pos.to_nat w < Pos.to_nat w)%nat) by (apply Nat.mod_upper_bound; lia).
    assert (Hy : (j / Pos.to_nat w < Pos.to_nat h)%nat)
      by (apply Nat.Div0.div_lt_upper_bound; lia).
    apply Nat.ltb_lt in Hx, Hy. rewrite Hx, Hy. cbn [andb].
    replace (j / Pos.to_nat w * Pos.to_nat w + j mod Pos.to_nat w)%nat with j
      by (rewrite (Nat.div_mod_eq j (Pos.to_nat w)) at 1; lia).
    destruct (nth_error ps j) as [p|] eqn:Ep.
    + f_equal. apply over_opaque.
      unfold all_opaque in Op. cbn [pixels] in Op. rewrite Forall_forall in Op.
      apply Op. eapply nth_error_In; eauto.
    + exfalso. apply nth_error_None in Ep. apply Nat.ltb_lt in Hx, Hy.
      rewrite Wi in Ep. unfold area in Ep. rewrite Pos2Nat.inj_mul in Ep.
      assert ((j / Pos.to_nat w) * Pos.to_nat w <= j)%nat
        by (rewrite (Nat.div_mod_eq j (Pos.to_nat w)) at 2; lia).
      nia.
  - symmetry. apply nth_error_None. apply nth_error_None in Ed. lia.
Qed.

Lemma fillRectAll_black (m : Bitmap) :
  fillRectAll black m = mkBitmap (width m) (height m) (map (fun _ => black) (pixels m)).
Proof.
  unfold fillRectAll. f_equal. apply map_ext. intros; apply over_black.
Qed.

(** The emptiness test of [applyProcessing] looks at every byte of the image
    data, and the alpha byte of an opaque pixel is 255. *)
Lemma hasContent_opaque (m : Bitmap) :
  pixels m <> [] -> all_opaque m ->
  existsb (fun pixel => pixel >? 0) (getImageData m) = true.
Proof.
  unfold all_opaque, getImageData. destruct (pixels m) as [|p ps]; [congruence|].
  intros _ H. inversion H as [|? ? Hp _]; subst. unfold opaque in Hp.
  cbn [flat_map app existsb]. rewrite Hp. cbn. now rewrite !orb_true_r.
Qed.

Lemma cleared_all_opaque (m : Bitmap) : all_opaque (fillRectAll black m).
Proof.
  rewrite fillRectAll_black. unfold all_opaque. cbn [pixels].
  apply Forall_forall. intros p Hp. apply in_map_iff in Hp as [? [<- _]]. reflexivity.
Qed.

(** [clearMask]'s black fill selects nothing. *)
Lemma cleared_all_zero (m : Bitmap) : allZero (fillRectAll black m).
Proof.
  unfold allZero. rewrite fillRectAll_black. cbn [pixels].
  apply Forall_forall. intros p Hp. apply in_map_iff in Hp as [? [<- _]]. reflexivity.
Qed.

(** ** The client: how the handlers move the state *)

(** Case analysis on every [match] and [if] of a handler. *)
Ltac split_cases :=
  repeat match goal with
         | |- context [match ?x with _ => _ end] => destruct x eqn:?
         end.

Ltac unfold_handlers :=
  unfold handleImageUpload, startDrawing, stopDrawing, draw, resetImage, clearMask,
    checkBackendHealth, transformSettled, processingFailed, healthSettled, newImage,
    decreaseBrush, increaseBrush, runTask, fileReadDone, uploadImageDone,
    previewImageDone, redrawImageDone, resetImageDone, resultImageDone, clearMask.

Ltac state_simpl :=
  cbn [image originalImage isDrawing brushSize mode isProcessing error backendStatus
       canvasRef maskCanvasRef epoch pending sent
       setImage setOriginalImage setIsDrawing setBrushSize setMode setIsProcessing
       setError setBackendStatus putCanvas putMask setRefs addTask send setPending].

Lemma render_sent s : sent (render s) = sent s.
Proof. unfold render. split_cases; reflexivity. Qed.

Lemma render_brushSize s : brushSize (render s) = brushSize s.
Proof. unfold render. split_cases; reflexivity. Qed.

Lemma render_pending s : pending (render s) = pending s.
Proof. unfold render. split_cases; reflexivity. Qed.

Lemma render_isProcessing s : isProcessing (render s) = isProcessing s.
Proof. unfold render. split_cases; reflexivity. Qed.

Lemma render_shown s u c : image s = Some u -> canvasRef s = Some c -> render s = s.
Proof. unfold render. now intros -> ->. Qed.

Lemma render_hidden s : image s = None -> canvasRef s = None -> render s = s.
Proof. unfold render. now intros -> ->. Qed.

Lemma nth_error_last {A} (l : list A) (t : A) :
  nth_error (l ++ [t]) (length (l ++ [t]) - 1) = Some t.
Proof.
  rewrite length_app. cbn [length]. replace (length l + 1 - 1)%nat with (length l) by lia.
  rewrite nth_error_app2 by lia. now rewrite Nat.sub_diag.
Qed.

Lemma remove_nth_last {A} (l : list A) (t : A) :
  remove_nth (length (l ++ [t]) - 1) (l ++ [t]) = l.
Proof.
  rewrite length_app. cbn [length]. replace (length l + 1 - 1)%nat with (length l) by lia.
  induction l as [|a l IH]; cbn; [reflexivity|now rewrite IH].
Qed.

Lemma remove_nth_Forall {A} (P : A -> Prop) (l : list A) (n : nat) :
  Forall P l -> Forall P (remove_nth n l).
Proof.
  revert n; induction l as [|a l IH]; intros [|n] H; cbn; auto;
    inversion H; subst; auto.
Qed.

Lemma filter_snoc_local (l : list Task) (t : Task) :
  isTransform t = false -> filter isTransform (l ++ [t]) = filter isTransform l.
Proof. intros H. rewrite filter_app. cbn [filter]. rewrite H. apply app_nil_r. Qed.

Lemma filter_remove_local (l : list Task) (n : nat) (t : Task) :
  nth_error l n = Some t -> isTransform t = false ->
  filter isTransform (remove_nth n l) = filter isTransform l.
Proof.
  revert n; induction l as [|a l IH]; intros [|n] Hn Ht; cbn in *; try discriminate.
  - inversion Hn; subst. now rewrite Ht.
  - destruct (isTransform a); [f_equal|]; eauto.
Qed.

Lemma filter_remove_transform (l : list Task) (n : nat) (t : Task) :
  nth_error l n = Some t -> isTransform t = true ->
  S (length (filter isTransform (remove_nth n l))) = length (filter isTransform l).
Proof.
  revert n; induction l as [|a l IH]; intros [|n] Hn Ht; cbn in *; try discriminate.
  - inversion Hn; subst. now rewrite Ht.
  - destruct (isTransform a); cbn [length]; [f_equal|]; eauto.
Qed.

Lemma isLocal_not_transform t : isLocal t = true -> isTransform t = false.
Proof. destruct t; cbn; congruence. Qed.

(** *** What [applyProcessing] sends *)

Lemma applyProcessing_sent s :
  sent (applyProcessing s) = sent s \/
  exists m, maskCanvasRef s = Some m /\
    sent (applyProcessing s)
    = transformRequest (mode s) (originalImage s) (toDataURL m) :: sent s.
Proof.
  unfold applyProcessing. split_cases; try (left; reflexivity).
  right. eexists; split; reflexivity.
Qed.

(** On an opaque mask, and the black fill and the white strokes leave no other,
    the emptiness test of [applyProcessing] always finds content. *)
Lemma apply_sends_opaque_mask s m :
  backendStatus s = Online -> maskCanvasRef s = Some m ->
  pixels m <> [] -> all_opaque m ->
  sent (applyProcessing s)
  = transformRequest (mode s) (originalImage s) (toDataURL m) :: sent s.
Proof.
  intros Hb Hm Hne Ho. unfold applyProcessing. rewrite Hb, Hm. cbn [isOnline negb].
  now rewrite hasContent_opaque.
Qed.

(** After [clearMask] the emptiness test of [applyProcessing] still finds
    content, the alpha bytes of the black fill, and the request goes out. *)
Lemma apply_sends_cleared_mask s c m :
  backendStatus s = Online -> canvasRef s = Some c -> maskCanvasRef s = Some m ->
  pixels m <> [] ->
  sent (applyProcessing (clearMask (originalImage s) s))
  = transformRequest (mode s) (originalImage s) (toDataURL (fillRectAll black m)) :: sent s.
Proof.
  intros Hb Hc Hm Hne. unfold clearMask. rewrite Hm, Hc.
  unfold applyProcessing. state_simpl. rewrite Hb. cbn [isOnline negb].
  rewrite hasContent_opaque; [reflexivity| |apply cleared_all_opaque].
  cbn [fillRectAll pixels]. destruct (pixels m); [congruence|discriminate].
Qed.

(** The test does reject a mask whose bytes are all zero, alpha included: a
    canvas nothing has been drawn on. *)
Lemma apply_rejects_blank_mask s w h :
  backendStatus s = Online -> maskCanvasRef s = Some (blank w h) ->
  sent (applyProcessing s) = sent s /\
  error (applyProcessing s) = Some "Please draw on the image first to select an area" /\
  isProcessing (applyProcessing s) = false.
Proof.
  intros Hb Hm. unfold applyProcessing. rewrite Hb, Hm. cbn [isOnline negb].
  assert (E : existsb (fun pixel => pixel >? 0) (getImageData (blank w h)) = false).
  { unfold getImageData, blank. cbn [pixels].
    induction (area w h) as [|n IH]; [reflexivity|]. cbn. exact IH. }
  rewrite E. repeat split.
Qed.

(** [BlurTool] has no emptiness test at all. *)
Lemma blurTool_apply_sends s c m :
  BlurTool.canvasRef s = Some c -> BlurTool.maskCanvasRef s = Some m ->
  BlurTool.sent (BlurTool.applyProcessing s)
  = BlurTool.transformRequest (BlurTool.mode s) (BlurTool.originalImage s) (toDataURL m)
    :: BlurTool.sent s.
Proof. intros Hc Hm. unfold BlurTool.applyProcessing. now rewrite Hc, Hm. Qed.

(** *** Uploading *)

Lemma upload_wrong_type f s :
  String.prefix "image/" (ftype f) = false ->
  handleImageUpload (Some f) s = setError (Some "Please upload a valid image file") s.
Proof. intros H. unfold handleImageUpload. now rewrite H. Qed.

Lemma upload_too_large f s :
  String.prefix "image/" (ftype f) = true -> maxFileSize < fsize f ->
  handleImageUpload (Some f) s = setError (Some "Image size should be less than 10MB") s.
Proof.
  intros H Hs. unfold handleImageUpload. rewrite H. cbn [negb].
  now apply Z.gtb_lt in Hs as ->.
Qed.

Lemma upload_undecodable u s :
  decode u = None -> uploadImageDone u s = setError (Some "Failed to load image") s.
Proof. intros H. unfold uploadImageDone. now rewrite H. Qed.

(** With both canvases mounted a decodable upload is recorded as [image] and
    [originalImage] and the mask is filled with black. *)
Lemma upload_mounted u img c m s :
  decode u = Some img -> canvasRef s = Some c -> maskCanvasRef s = Some m ->
  let s' := uploadImageDone u s in
  image s' = Some u /\ originalImage s' = Some u /\ error s' = None /\
  canvasRef s' = Some (drawImage img (blank (width img) (height img))) /\
  maskCanvasRef s' = Some (fillRectAll black (blank (width img) (height img))).
Proof.
  intros Hd Hc Hm. unfold uploadImageDone. rewrite Hd, Hc, Hm. repeat split.
Qed.

(** *** Resetting *)

(** [resetImage] sets the stored working image to the first upload and blackens
    the mask; the redraw it leaves pending is of the working image it found. *)
Lemma resetImage_state u c m s :
  image s = Some u -> canvasRef s = Some c -> maskCanvasRef s = Some m ->
  let s' := resetImage s in
  originalImage s' = Some u /\
  maskCanvasRef s' = Some (fillRectAll black m) /\
  pending s' = (pending s ++ [ResetImage u; RedrawImage (originalImage s) (epoch s)])%list.
Proof.
  intros Hi Hc Hm. unfold resetImage, clearMask. rewrite Hi. state_simpl.
  rewrite Hm, Hc. state_simpl. repeat split. now rewrite <- app_assoc.
Qed.

Section ClientFacts.

Variable arcCoverage : float -> float -> Z -> positive -> positive -> nat -> Z.

Lemma dispatch_sent ev s :
  sent (dispatch arcCoverage ev s) = sent s \/
  exists m, maskCanvasRef s = Some m /\
    sent (dispatch arcCoverage ev s)
    = transformRequest (mode s) (originalImage s) (toDataURL m) :: sent s.
Proof.
  destruct ev; cbn [dispatch];
    try (left; unfold_handlers; split_cases; reflexivity).
  destruct (editorShown s && negb (isProcessing s || negb (isOnline (backendStatus s)))).
  - apply applyProcessing_sent.
  - now left.
Qed.

(** The two brush buttons step by 5 and clamp. *)
Lemma brush_buttons s :
  editorShown s = true ->
  brushSize (handle arcCoverage s ClickMinus) = Z.max 5 (brushSize s - 5) /\
  brushSize (handle arcCoverage s ClickPlus) = Z.min 100 (brushSize s + 5).
Proof.
  intros H. unfold handle. rewrite !render_brushSize. cbn [dispatch]. rewrite H.
  split; reflexivity.
Qed.

Lemma dispatch_brushSize ev s :
  5 <= brushSize s <= 100 -> 5 <= brushSize (dispatch arcCoverage ev s) <= 100.
Proof.
  intros H.
  destruct ev; cbn [dispatch]; unfold_handlers; unfold applyProcessing, processingFailed;
    split_cases; state_simpl; lia.
Qed.

Lemma runTask_flight t s :
  inFlight (runTask t s) = inFlight s /\ isProcessing (runTask t s) = isProcessing s.
Proof.
  unfold inFlight. destruct t; unfold_handlers; split_cases; state_simpl;
    rewrite ?filter_snoc_local by reflexivity; split; reflexivity.
Qed.

Lemma applyProcessing_flight s :
  isProcessing s = false -> singleFlight s -> singleFlight (applyProcessing s).
Proof.
  intros Hp [H1 H2]. unfold singleFlight, inFlight in *.
  destruct (filter isTransform (pending s)) as [|t l] eqn:E.
  2:{ rewrite H2 in Hp by discriminate. discriminate. }
  unfold applyProcessing, processingFailed. split_cases; state_simpl; rewrite ?E;
    try (split; [cbn; lia|congruence]).
  rewrite filter_app, E. cbn. split; [lia|reflexivity].
Qed.

Lemma singleFlight_dispatch ev s :
  singleFlight s -> singleFlight (dispatch arcCoverage ev s).
Proof.
  intros H.
  destruct ev; cbn [dispatch];
    try (destruct H as [H1 H2]; unfold singleFlight, inFlight in *;
         unfold_handlers; split_cases; state_simpl;
         rewrite ?filter_snoc_local by reflexivity; split; assumption).
  - destruct (editorShown s); cbn [andb]; [|assumption].
    destruct (isProcessing s) eqn:Ep; cbn [orb negb]; [assumption|].
    destruct (negb (isOnline (backendStatus s))); cbn [negb]; [assumption|].
    now apply applyProcessing_flight.
  - destruct (nth_error (pending s) n) as [t|] eqn:En; [|assumption].
    destruct (isLocal t) eqn:El; [|assumption].
    destruct H as [H1 H2]. unfold singleFlight.
    destruct (runTask_flight t (setPending (remove_nth n (pending s)) s)) as [-> ->].
    unfold inFlight in *. state_simpl.
    rewrite (filter_remove_local _ _ _ En (isLocal_not_transform _ El)). now split.
  - destruct (nth_error (pending s) n) as [t|] eqn:En; [|assumption].
    destruct t; try assumption.
    destruct H as [H1 H2]. unfold singleFlight, inFlight in *.
    pose proof (filter_remove_transform _ _ _ En eq_refl) as Hr.
    assert (E0 : filter isTransform (remove_nth n (pending s)) = []).
    { destruct (filter isTransform (remove_nth n (pending s))); [reflexivity|].
      cbn [length] in Hr. lia. }
    unfold transformSettled, processingFailed. split_cases; state_simpl;
      rewrite ?filter_snoc_local by reflexivity; rewrite E0; split; cbn; try lia; congruence.
  - destruct (nth_error (pending s) n) as [t|] eqn:En; [|assumption].
    destruct t; try assumption.
    destruct H as [H1 H2]. unfold singleFlight, inFlight in *.
    unfold healthSettled. split_cases; state_simpl;
      rewrite (filter_remove_local _ _ _ En eq_refl); now split.
Qed.

Lemma singleFlight_handle ev s :
  singleFlight s -> singleFlight (handle arcCoverage s ev).
Proof.
  intros H. apply (singleFlight_dispatch ev) in H. unfold handle, singleFlight, inFlight in *.
  now rewrite render_pending, render_isProcessing.
Qed.

(** While a request is outstanding the Apply button is disabled. *)
Lemma apply_disabled s :
  singleFlight s -> inFlight s <> [] -> dispatch arcCoverage ClickApply s = s.
Proof.
  intros [_ H] Hn. cbn [dispatch]. rewrite (H Hn). cbn [orb negb].
  now rewrite andb_false_r.
Qed.

Lemma neverMounted_handle ev s :
  neverMounted s -> neverMounted (handle arcCoverage s ev).
Proof.
  intros (Hi & Hc & Hm & Hp). unfold handle.
  assert (Hd : neverMounted (dispatch arcCoverage ev s)).
  { unfold neverMounted.
    assert (Es : editorShown s = false) by (unfold editorShown; now rewrite Hi).
    destruct ev; cbn [dispatch]; rewrite ?Es; cbn [andb];
      try (repeat split; assumption).
    - unfold handleImageUpload. split_cases; state_simpl; repeat split; try assumption.
      apply Forall_app; split; [assumption|]. repeat constructor.
    - split_cases; state_simpl; repeat split; assumption.
    - unfold checkBackendHealth. split_cases; state_simpl; repeat split; try assumption.
      apply Forall_app; split; [assumption|]. repeat constructor.
    - destruct (nth_error (pending s) n) as [t|] eqn:En; [|repeat split; assumption].
      destruct (isLocal t) eqn:El; [|repeat split; assumption].
      assert (Ht : uploading t).
      { rewrite Forall_forall in Hp. apply Hp. eapply nth_error_In; eauto. }
      pose proof (remove_nth_Forall _ _ n Hp) as Hr.
      destruct t; cbn in Ht; try contradiction; try discriminate;
        unfold_handlers; state_simpl; rewrite ?Hc; split_cases; state_simpl;
        repeat split; try assumption.
      apply Forall_app; split; [assumption|]. repeat constructor.
    - destruct (nth_error (pending s) n) as [t|] eqn:En; [|repeat split; assumption].
      assert (Ht : uploading t).
      { rewrite Forall_forall in Hp. apply Hp. eapply nth_error_In; eauto. }
      destruct t; cbn in Ht; try contradiction; repeat split; assumption.
    - destruct (nth_error (pending s) n) as [t|] eqn:En; [|repeat split; assumption].
      destruct t; try (repeat split; assumption).
      pose proof (remove_nth_Forall _ _ n Hp) as Hr.
      unfold healthSettled. split_cases; state_simpl; repeat split; assumption. }
  destruct Hd as (Hi' & Hc' & Hm' & Hp').
  rewrite (render_hidden _ Hi' Hc'). repeat split; assumption.
Qed.

Lemma neverMounted_run evs s :
  neverMounted s -> neverMounted (run arcCoverage s evs).
Proof.
  revert s; induction evs as [|ev evs IH]; intros s H; cbn; [assumption|].
  apply IH. now apply neverMounted_handle.
Qed.

Lemma neverMounted_init : neverMounted init.
Proof. repeat split. repeat constructor. Qed.

(** From the first render on, no sequence of events gets an image into the
    component: the canvases that [handleImageUpload] needs are rendered only
    once [image] is set. *)
Lemma image_never_loaded evs : image (run arcCoverage init evs) = None.
Proof. apply (neverMounted_run evs init neverMounted_init). Qed.

End ClientFacts.

(** *** The preview loop *)

Lemma getImageData_length (m : Bitmap) :
  length (getImageData m) = (4 * length (pixels m))%nat.
Proof.
  unfold getImageData. induction (pixels m) as [|p ps IH]; cbn [flat_map length app];
    [reflexivity|]. rewrite IH. lia.
Qed.

Lemma getImageData_red (m : Bitmap) (k : nat) :
  nth (4 * k) (getImageData m) 0 = red (nth k (pixels m) transparent).
Proof.
  unfold getImageData. revert k. induction (pixels m) as [|p ps IH]; intros k.
  - cbn. now destruct (4 * k)%nat, k.
  - destruct k as [|k].
    + reflexivity.
    + replace (4 * S k)%nat with (S (S (S (S (4 * k))))) by lia.
      cbn [flat_map app nth]. apply IH.
Qed.

Lemma mapi_mapi {A B C} (f : nat -> B -> C) (g : nat -> A -> B) (l : list A) :
  mapi f (mapi g l) = mapi (fun j a => f j (g j a)) l.
Proof.
  apply nth_error_ext. intros j. rewrite !mapi_nth_error.
  now destruct (nth_error l j).
Qed.

Lemma mapi_id {A} (f : nat -> A -> A) (l : list A) :
  (forall j a, nth_error l j = Some a -> f j a = a) -> mapi f l = l.
Proof.
  intros H. apply nth_error_ext. intros j. rewrite mapi_nth_error.
  destruct (nth_error l j) eqn:E; cbn; [f_equal; auto|reflexivity].
Qed.

Lemma mapi_ext_in {A B} (f g : nat -> A -> B) (l : list A) :
  (forall j a, nth_error l j = Some a -> f j a = g j a) -> mapi f l = mapi g l.
Proof.
  intros H. apply nth_error_ext. intros j. rewrite !mapi_nth_error.
  destruct (nth_error l j) eqn:E; cbn; [f_equal; auto|reflexivity].
Qed.

(** The preview loop tints exactly the pixels whose mask value is positive. *)
Lemma overlayLoop_spec (m c : Bitmap) :
  wf_bitmap m -> wf_bitmap c -> width c = width m -> height c = height m ->
  overlayLoop m c
  = mkBitmap (width c) (height c)
      (mapi (fun j d => if red (nth j (pixels m) transparent) >? 0
                        then over (withAlpha alpha40 redColour) d else d)
            (pixels c)).
Proof.
  intros Wm Wc Ew Eh. unfold overlayLoop.
  rewrite getImageData_length.
  replace (4 * length (pixels m) / 4)%nat with (length (pixels m))
    by (rewrite Nat.mul_comm, Nat.div_mul; lia).
  assert (G : forall n, (n <= length (pixels m))%nat ->
    fold_left
      (fun cv k =>
         if nth (4 * k) (getImageData m) 0 >? 0
         then fillRect1 (withAlpha alpha40 redColour)
                ((4 * k / 4) mod Pos.to_nat (width m))
                ((4 * k / 4) / Pos.to_nat (width m)) cv
         else cv)
      (seq 0 n) c
    = mkBitmap (width c) (height c)
        (mapi (fun j d => if (j <? n)%nat && (red (nth j (pixels m) transparent) >? 0)
                          then over (withAlpha alpha40 redColour) d else d)
              (pixels c))).
  { induction n as [|n IH]; intros Hn.
    - cbn [seq fold_left]. destruct c as [w h ps]. cbn [width height pixels].
      f_equal. symmetry. apply mapi_id. intros j a _. reflexivity.
    - rewrite seq_S, fold_left_app. cbn [fold_left Nat.add]. rewrite IH by lia.
      rewrite getImageData_red.
      replace (4 * n / 4)%nat with n by (rewrite Nat.mul_comm, Nat.div_mul; lia).
      destruct (red (nth n (pixels m) transparent) >? 0) eqn:Er.
      + unfold fillRect1. cbn [width height pixels].
        unfold wf_bitmap, area in Wm. rewrite Pos2Nat.inj_mul in Wm.
        rewrite Ew, Eh.
        pose proof (Pos2Nat.is_pos (width m)) as Hw.
        assert (Hx : (n mod Pos.to_nat (width m) < Pos.to_nat (width m))%nat)
          by (apply Nat.mod_upper_bound; lia).
        assert (Hy : (n / Pos.to_nat (width m) < Pos.to_nat (height m))%nat)
          by (apply Nat.Div0.div_lt_upper_bound; lia).
        apply Nat.ltb_lt in Hx, Hy. rewrite Hx, Hy. cbn [andb].
        f_equal. rewrite mapi_mapi. apply mapi_ext_in. intros j a _.
        replace (n / Pos.to_nat (width m) * Pos.to_nat (width m)
                 + n mod Pos.to_nat (width m))%nat with n
          by (rewrite (Nat.div_mod_eq n (Pos.to_nat (width m))) at 1; lia).
        destruct (Nat.eqb_spec j n) as [->|Hjn].
        * rewrite Nat.ltb_irrefl. cbn [andb].
          replace (n <? S n)%nat with true by (symmetry; apply Nat.ltb_lt; lia).
          now rewrite Er.
        * destruct (Nat.ltb_spec j n), (Nat.ltb_spec j (S n)); try lia; reflexivity.
      + f_equal. apply mapi_ext_in. intros j a _.
        destruct (Nat.eqb_spec j n) as [->|Hjn].
        * rewrite Nat.ltb_irrefl, Er. cbn [andb]. now rewrite andb_false_r.
        * destruct (Nat.ltb_spec j n), (Nat.ltb_spec j (S n)); try lia; reflexivity. }
  rewrite (G _ (le_n _)). f_equal. apply mapi_ext_in. intros j a Hj.
  assert (Hlt : (j < length (pixels c))%nat) by (apply nth_error_Some; congruence).
  unfold wf_bitmap in Wm, Wc. rewrite Wc, Ew, Eh, <- Wm in Hlt.
  apply Nat.ltb_lt in Hlt. now rewrite Hlt.
Qed.

(** *** Strokes on an opaque mask *)

Lemma div_round_mul_l (a b : Z) : 0 < b -> div_round (b * a) b = a.
Proof. intros H. rewrite Z.mul_comm. now apply div_round_mul. Qed.

Lemma clamp255_range (v : Z) : 0 <= clamp255 v <= 255.
Proof. unfold clamp255. lia. Qed.

Lemma stroke_pixel (a : Z) (d : Pixel) :
  0 <= a <= 255 -> opaque d -> 0 <= red d <= 255 ->
  let p := over (withAlpha a white) d in
  opaque p /\ 0 <= red p <= 255 /\ (red p >? 0) = ((a >? 0) || (red d >? 0)).
Proof.
  intros Ha Hd Hr. cbv zeta. split; [now apply over_on_opaque|].
  unfold over, withAlpha, white, opaque in *. cbn [alpha red green blue].
  rewrite Hd, (div_round_mul_l a 255) by lia.
  replace (255 * a + 255 * (255 - a)) with 65025 by ring. cbn [Z.eqb].
  cbn [red]. unfold div_round.
  set (num := 255 * 255 * a + red d * 255 * (255 - a)).
  assert (Hn : 0 <= num <= 255 * 65025) by (unfold num; nia).
  assert (Hq : 0 <= (2 * num + 65025) / (2 * 65025) <= 255).
  { split; [apply Z.div_pos; lia|].
    assert ((2 * num + 65025) / (2 * 65025) < 256) by (apply Z.div_lt_upper_bound; lia).
    lia. }
  split; [exact Hq|].
  destruct (Z.eq_dec a 0) as [->|Na].
  - cbn [Z.gtb Z.compare orb].
    replace num with (red d * 65025) by (unfold num; ring).
    replace (2 * (red d * 65025) + 65025) with (65025 + red d * (2 * 65025)) by ring.
    rewrite Z.div_add by lia. now rewrite Z.div_small by lia.
  - assert (Hp : 1 <= (2 * num + 65025) / (2 * 65025)).
    { apply Z.div_le_lower_bound; [lia|]. unfold num. nia. }
    replace (a >? 0) with true by (symmetry; apply Z.gtb_lt; lia).
    cbn [orb]. apply Z.gtb_lt. lia.
Qed.

Lemma fillPath_wf (f : nat -> Z) (m : Bitmap) : wf_bitmap m -> wf_bitmap (fillPath f m).
Proof. unfold wf_bitmap, fillPath. cbn [width height pixels]. now rewrite mapi_length. Qed.

Lemma fillPath_nth (f : nat -> Z) (m : Bitmap) (j : nat) :
  (j < length (pixels m))%nat ->
  nth j (pixels (fillPath f m)) transparent
  = over (withAlpha (clamp255 (f j)) white) (nth j (pixels m) transparent).
Proof.
  intros Hj. unfold fillPath. cbn [pixels].
  apply nth_error_nth. rewrite mapi_nth_error.
  rewrite (nth_error_nth' _ transparent Hj). reflexivity.
Qed.

(** A stroke on a mask as [clearMask] and earlier strokes leave it keeps it
    opaque, and selects the pixels it covers in addition to those selected
    before. *)
Lemma fillPath_ready (f : nat -> Z) (m : Bitmap) :
  maskReady m -> maskReady (fillPath f m).
Proof.
  unfold maskReady. intros H. apply Forall_forall. intros p Hp.
  apply In_nth_error in Hp as [j Hj]. unfold fillPath in Hj. cbn [pixels] in Hj.
  rewrite mapi_nth_error in Hj.
  destruct (nth_error (pixels m) j) as [d|] eqn:Ed; [|discriminate].
  cbn in Hj. inversion Hj; subst p. rewrite Forall_forall in H.
  destruct (H d (nth_error_In _ _ Ed)) as [Ho Hr].
  destruct (stroke_pixel (clamp255 (f j)) d (clamp255_range _) Ho Hr) as (? & ? & _).
  now split.
Qed.

Lemma fillPath_selection (f : nat -> Z) (m : Bitmap) (j : nat) :
  maskReady m -> (j < length (pixels m))%nat ->
  (red (nth j (pixels (fillPath f m)) transparent) >? 0)
  = ((clamp255 (f j) >? 0) || (red (nth j (pixels m) transparent) >? 0)).
Proof.
  intros H Hj. rewrite fillPath_nth by assumption.
  unfold maskReady in H. rewrite Forall_forall in H.
  destruct (H (nth j (pixels m) transparent) (nth_In _ _ Hj)) as [Ho Hr].
  now destruct (stroke_pixel (clamp255 (f j)) _ (clamp255_range _) Ho Hr) as (_ & _ & ->).
Qed.

(** The same stroke a second time selects nothing new. *)
Lemma fillPath_twice (f : nat -> Z) (m : Bitmap) (j : nat) :
  maskReady m -> (j < length (pixels m))%nat ->
  (red (nth j (pixels (fillPath f (fillPath f m))) transparent) >? 0)
  = (red (nth j (pixels (fillPath f m)) transparent) >? 0).
Proof.
  intros H Hj.
  rewrite (fillPath_selection f (fillPath f m)); [|now apply fillPath_ready|].
  - rewrite fillPath_selection by assumption.
    now destruct (clamp255 (f j) >? 0), (red (nth j (pixels m) transparent) >? 0).
  - unfold fillPath. cbn [pixels]. now rewrite mapi_length.
Qed.

(** With an opaque working image of the canvas's size, the preview callback
    leaves on the canvas the working image with the highlight composited over
    exactly the pixels whose mask value is positive, whatever was there. *)
Lemma preview_opaque src img c m s :
  decodeSrc src = Some img -> canvasRef s = Some c -> maskCanvasRef s = Some m ->
  wf_bitmap img -> wf_bitmap c -> wf_bitmap m ->
  width c = width img -> height c = height img ->
  width m = width img -> height m = height img ->
  all_opaque img ->
  canvasRef (previewImageDone src (epoch s) s) = Some (expectedPreview img m).
Proof.
  intros Hd Hc Hm Wi Wc Wm Ew Eh Ew' Eh' Op.
  unfold previewImageDone. rewrite Nat.eqb_refl, Hd, Hc, Hm. cbn [negb canvasRef putCanvas].
  rewrite (drawImage_opaque img c) by assumption.
  rewrite overlayLoop_spec by (try assumption; congruence). reflexivity.
Qed.

Lemma expectedPreview_wf (img m : Bitmap) : wf_bitmap img -> wf_bitmap (expectedPreview img m).
Proof. unfold wf_bitmap, expectedPreview. cbn [width height pixels]. now rewrite mapi_length. Qed.

Lemma expectedPreview_selection (img m m' : Bitmap) :
  (forall j, (j < length (pixels img))%nat ->
             (red (nth j (pixels m') transparent) >? 0)
             = (red (nth j (pixels m) transparent) >? 0)) ->
  expectedPreview img m' = expectedPreview img m.
Proof.
  intros H. unfold expectedPreview. f_equal. apply mapi_ext_in. intros j a Hj.
  rewrite H; [reflexivity|]. apply nth_error_Some. congruence.
Qed.

Section Strokes.

Variable arcCoverage : float -> float -> Z -> positive -> positive -> nat -> Z.

Lemma fillDisc_shape pos r m :
  width (fillDisc arcCoverage pos r m) = width m /\
  height (fillDisc arcCoverage pos r m) = height m /\
  length (pixels (fillDisc arcCoverage pos r m)) = length (pixels m).
Proof.
  unfold fillDisc. destruct pos as [x y].
  destruct (PrimFloat.is_finite x && PrimFloat.is_finite y); [|repeat split].
  cbn [fillPath width height pixels]. rewrite mapi_length. repeat split.
Qed.

Lemma fillDisc_wf pos r m : wf_bitmap m -> wf_bitmap (fillDisc arcCoverage pos r m).
Proof.
  unfold wf_bitmap. destruct (fillDisc_shape pos r m) as (-> & -> & ->). auto.
Qed.

Lemma fillDisc_ready pos r m : maskReady m -> maskReady (fillDisc arcCoverage pos r m).
Proof.
  unfold fillDisc. destruct pos as [x y].
  destruct (PrimFloat.is_finite x && PrimFloat.is_finite y); [|auto].
  apply fillPath_ready.
Qed.

(** After a white disc a pixel is selected exactly when the disc covers it or
    it was selected before. *)
Lemma fillDisc_selection pos r m j :
  maskReady m -> (j < length (pixels m))%nat ->
  selected (fillDisc arcCoverage pos r m) j
  = ((let (x, y) := pos in
      PrimFloat.is_finite x && PrimFloat.is_finite y
      && (clamp255 (arcCoverage x y r (width m) (height m) j) >? 0))
     || selected m j).
Proof.
  intros Rm Hj. unfold fillDisc, selected. destruct pos as [x y].
  destruct (PrimFloat.is_finite x && PrimFloat.is_finite y); cbn [andb orb];
    [|reflexivity].
  now apply fillPath_selection.
Qed.

Lemma fillDisc_grows pos r m j :
  maskReady m -> (j < length (pixels m))%nat ->
  red (nth j (pixels m) transparent)
  <= red (nth j (pixels (fillDisc arcCoverage pos r m)) transparent).
Proof.
  intros Rm Hj. unfold fillDisc. destruct pos as [x y].
  destruct (PrimFloat.is_finite x && PrimFloat.is_finite y); [|reflexivity].
  unfold maskReady in Rm. rewrite Forall_forall in Rm.
  destruct (Rm (nth j (pixels m) transparent) (nth_In _ _ Hj)) as [Ho Hr].
  rewrite fillPath_nth by assumption.
  unfold over, withAlpha, white, opaque in *. cbn [alpha red green blue].
  pose proof (clamp255_range (arcCoverage x y r (width m) (height m) j)) as Ha.
  set (a := clamp255 _) in *.
  rewrite Ho, (div_round_mul_l a 255) by lia.
  replace (255 * a + 255 * (255 - a)) with 65025 by ring. cbn [Z.eqb].
  cbn [red]. unfold div_round.
  apply Z.div_le_lower_bound; [lia|]. nia.
Qed.

(** The same disc a second time selects nothing new. *)
Lemma fillDisc_twice pos r m j :
  maskReady m -> (j < length (pixels m))%nat ->
  selected (fillDisc arcCoverage pos r (fillDisc arcCoverage pos r m)) j
  = selected (fillDisc arcCoverage pos r m) j.
Proof.
  intros Rm Hj. destruct (fillDisc_shape pos r m) as (Ew & Eh & El).
  rewrite (fillDisc_selection pos r (fillDisc arcCoverage pos r m));
    [|now apply fillDisc_ready|now rewrite El].
  rewrite Ew, Eh, (fillDisc_selection pos r m) by assumption.
  destruct pos as [x y].
  now destruct (PrimFloat.is_finite x && PrimFloat.is_finite y
                && (clamp255 (arcCoverage x y r (width m) (height m) j) >? 0)),
               (selected m j).
Qed.

(** One stroke, a paint event and its preview callback, on an opaque working
    image of the canvases' size: the mask takes the disc, and the canvas shows
    the working image with the highlight over the selected pixels, whatever it
    showed before. *)
Lemma stroke_step e u img c m s :
  originalImage s = Some u -> decode u = Some img ->
  canvasRef s = Some c -> maskCanvasRef s = Some m ->
  0 <= brushSize s ->
  wf_bitmap img -> wf_bitmap c -> wf_bitmap m ->
  width c = width img -> height c = height img ->
  width m = width img -> height m = height img ->
  all_opaque img ->
  let m1 := fillDisc arcCoverage (getMousePos e s) (brushSize s) m in
  stroke arcCoverage e s
  = putCanvas (expectedPreview img m1)
      (addTask (PreviewImage (Some u) (epoch s)) (putMask m1 s)).
Proof.
  intros Ho Hd Hc Hm Hb Wi Wc Wm Ew Eh Ew' Eh' Op m1.
  assert (Hb' : (brushSize s <? 0) = false) by (apply Z.ltb_ge; lia).
  unfold stroke, draw. cbn [negb orb andb]. rewrite andb_false_r, Hm, Hc, Hb', Ho.
  fold m1.
  destruct (fillDisc_shape (getMousePos e s) (brushSize s) m) as (E1 & F1 & _).
  fold m1 in E1, F1.
  set (s1 := addTask _ (putMask m1 s)).
  assert (P : canvasRef (previewImageDone (Some u) (epoch s1) s1)
              = Some (expectedPreview img m1)).
  { apply (preview_opaque (Some u) img c m1 s1); try assumption; try reflexivity;
      try congruence. now apply fillDisc_wf. }
  revert P. unfold previewImageDone.
  replace (epoch s1) with (epoch s) by reflexivity. rewrite Nat.eqb_refl.
  cbn [negb decodeSrc]. rewrite Hd.
  replace (canvasRef s1) with (Some c) by (symmetry; exact Hc).
  replace (maskCanvasRef s1) with (Some m1) by reflexivity.
  cbn [canvasRef putCanvas]. intros P. inversion P as [P']. now rewrite P'.
Qed.

(** For an opaque working image the preview is recomputed from it on each
    stroke: after one stroke it is the working image with the highlight over
    the selected pixels, and the same stroke again leaves it as it is. *)
Lemma preview_not_cumulative e u img c m s :
  originalImage s = Some u -> decode u = Some img ->
  canvasRef s = Some c -> maskCanvasRef s = Some m ->
  0 <= brushSize s ->
  wf_bitmap img -> wf_bitmap c -> wf_bitmap m ->
  width c = width img -> height c = height img ->
  width m = width img -> height m = height img ->
  all_opaque img -> maskReady m ->
  exists m1,
    maskCanvasRef (stroke arcCoverage e s) = Some m1 /\
    canvasRef (stroke arcCoverage e s) = Some (expectedPreview img m1) /\
    canvasRef (stroke arcCoverage e (stroke arcCoverage e s)) = Some (expectedPreview img m1).
Proof.
  intros Ho Hd Hc Hm Hb Wi Wc Wm Ew Eh Ew' Eh' Op Rm.
  pose proof (stroke_step e u img c m s Ho Hd Hc Hm Hb Wi Wc Wm Ew Eh Ew' Eh' Op) as S1.
  cbv zeta in S1.
  set (m1 := fillDisc arcCoverage (getMousePos e s) (brushSize s) m) in *.
  destruct (fillDisc_shape (getMousePos e s) (brushSize s) m) as (E1 & F1 & L1).
  fold m1 in E1, F1, L1.
  exists m1. rewrite S1. split; [reflexivity|]. split; [reflexivity|].
  set (s1 := putCanvas _ _) in *.
  rewrite (stroke_step e u img (expectedPreview img m1) m1 s1); try assumption;
    try reflexivity; try congruence.
  - cbn [canvasRef putCanvas]. f_equal. apply expectedPreview_selection. intros j Hj.
    assert (Hpos : getMousePos e s1 = getMousePos e s).
    { unfold getMousePos. replace (canvasRef s1) with (Some (expectedPreview img m1))
        by reflexivity. rewrite Hc. cbn [width height expectedPreview].
      now rewrite Ew, Eh. }
    rewrite Hpos. replace (brushSize s1) with (brushSize s) by reflexivity.
    apply (fillDisc_twice (getMousePos e s) (brushSize s) m j Rm).
    unfold wf_bitmap in Wi, Wm. rewrite Wm, Ew', Eh', <- Wi. exact Hj.
  - now apply expectedPreview_wf.
Qed.

End Strokes.

(** *** What the canvas shows after Reset and after a result *)

(** After Reset, [resetImage]'s own load shows the first upload and the load
    started by [clearMask] then shows the working image from before the
    reset. *)
Lemma reset_canvas a b c m s :
  image s = Some (DataImage a) -> originalImage s = Some (DataImage b) ->
  canvasRef s = Some c -> maskCanvasRef s = Some m ->
  wf_bitmap a -> wf_bitmap b -> wf_bitmap c ->
  width c = width a -> height c = height a ->
  width c = width b -> height c = height b ->
  all_opaque a -> all_opaque b ->
  let s1 := resetImage s in
  let s2 := resetImageDone (DataImage a) s1 in
  let s3 := redrawImageDone (Some (DataImage b)) (epoch s) s2 in
  originalImage s3 = Some (DataImage a) /\
  canvasRef s2 = Some a /\ canvasRef s3 = Some b.
Proof.
  intros Hi Ho Hc Hm Wa Wb Wc Ewa Eha Ewb Ehb Oa Ob.
  unfold resetImage, clearMask. rewrite Hi. state_simpl. rewrite Hm, Hc.
  unfold resetImageDone. cbn [decode]. state_simpl. rewrite Hc.
  unfold redrawImageDone. state_simpl. rewrite Nat.eqb_refl. cbn [negb decodeSrc decode].
  rewrite (drawImage_opaque a c) by assumption.
  rewrite (drawImage_opaque b a) by (try assumption; congruence).
  repeat split.
Qed.

(** After a successful result has loaded the canvas shows it, and the load
    started by [clearMask] then shows the working image from before Apply. *)
Lemma result_canvas r old c m s :
  canvasRef s = Some c -> maskCanvasRef s = Some m ->
  wf_bitmap r -> wf_bitmap old -> wf_bitmap c ->
  width c = width r -> height c = height r ->
  width c = width old -> height c = height old ->
  all_opaque r -> all_opaque old ->
  let s1 := resultImageDone (Some (DataImage r)) (Some (DataImage old)) s in
  let s2 := redrawImageDone (Some (DataImage old)) (epoch s) s1 in
  originalImage s2 = Some (DataImage r) /\
  canvasRef s1 = Some r /\ canvasRef s2 = Some old.
Proof.
  intros Hc Hm Wr Wo Wc Ewr Ehr Ewo Eho Or Oo.
  unfold resultImageDone, clearMask. cbn [decodeSrc decode]. rewrite Hc. state_simpl.
  rewrite Hm. state_simpl.
  unfold redrawImageDone. state_simpl. rewrite Nat.eqb_refl. cbn [negb decodeSrc decode].
  rewrite (drawImage_opaque r c) by assumption.
  rewrite (drawImage_opaque old r) by (try assumption; congruence).
  repeat split.
Qed.

(** ** Properties of the client *)

(** *** Rendering *)

Lemma render_idem s : render (render s) = render s.
Proof.
  unfold render. destruct (image s) eqn:Ei, (canvasRef s) eqn:Ec; state_simpl;
    rewrite ?Ei, ?Ec; reflexivity.
Qed.

Lemma render_image s : image (render s) = image s.
Proof. unfold render. destruct (image s) eqn:Ei, (canvasRef s); state_simpl; congruence. Qed.

Lemma render_backendStatus s : backendStatus (render s) = backendStatus s.
Proof. unfold render. destruct (image s), (canvasRef s); reflexivity. Qed.

Lemma render_error s : error (render s) = error s.
Proof. unfold render. destruct (image s), (canvasRef s); reflexivity. Qed.

Lemma render_isDrawing s : isDrawing (render s) = isDrawing s.
Proof. unfold render. destruct (image s), (canvasRef s); reflexivity. Qed.

(** In a committed state the canvas is mounted exactly when an image is set. *)
Lemma rendered_cases s :
  rendered s ->
  (image s = None /\ canvasRef s = None) \/
  (exists u c, image s = Some u /\ canvasRef s = Some c).
Proof.
  unfold rendered, render. destruct (image s) as [u|], (canvasRef s) as [c|]; intros H.
  - right; eauto.
  - apply (f_equal epoch) in H. cbn in H. lia.
  - apply (f_equal epoch) in H. cbn in H. lia.
  - now left.
Qed.

(** A handler that leaves [image] and the canvas ref alone causes no mount and
    no unmount. *)
Lemma render_frame s s' :
  rendered s -> image s' = image s -> canvasRef s' = canvasRef s -> render s' = s'.
Proof.
  intros H Ei Ec. unfold render. rewrite Ei, Ec.
  destruct (rendered_cases s H) as [[-> ->]|(u & c & -> & ->)]; reflexivity.
Qed.

Lemma run_cons cov s ev evs : run cov s (ev :: evs) = run cov (handle cov s ev) evs.
Proof. reflexivity. Qed.

(** *** The backend status and the failures of a request *)

(** X1.  The backend status becomes [online] in one way only: a health check
    that was pending is answered with an ok response.  No click, no callback
    and no answer to a transform request turns it online. *)
Theorem online_only_after_health_check cov s ev :
  backendStatus (handle cov s ev) = Online ->
  backendStatus s = Online \/
  exists n, ev = HealthSettles n (HealthResponded true) /\
            nth_error (pending s) n = Some Health.
Proof.
  unfold handle. rewrite render_backendStatus.
  destruct ev; cbn [dispatch]; unfold_handlers; unfold applyProcessing, processingFailed;
    split_cases; state_simpl; intros H; try (left; congruence); try discriminate.
  right. eexists; split; [reflexivity|assumption].
Qed.

(** X2.  When a transform request fails before a JSON answer is read (the
    fetch rejects, the response is not ok, or its body is not JSON), the banner
    shows [Failed to process: ] followed by the error's message, the backend is
    marked offline, [isProcessing] is cleared, the images, the canvases and the
    list of sent requests are as they were, and Apply is disabled: a click on
    it changes nothing. *)
Theorem request_failure_goes_offline cov s n rq captured o msg :
  rendered s ->
  nth_error (pending s) n = Some (Transform rq captured) ->
  failureMessage o = Some msg ->
  let s' := handle cov s (TransformSettles n o) in
  error s' = Some ("Failed to process: " ++ msg) /\
  backendStatus s' = Offline /\ isProcessing s' = false /\
  image s' = image s /\ originalImage s' = originalImage s /\
  canvasRef s' = canvasRef s /\ maskCanvasRef s' = maskCanvasRef s /\
  sent s' = sent s /\ pending s' = remove_nth n (pending s) /\
  handle cov s' ClickApply = s'.
Proof.
  intros Hr Hn Hf. cbv zeta.
  set (s1 := processingFailed msg (setPending (remove_nth n (pending s)) s)).
  assert (R1 : render s1 = s1) by (apply (render_frame s); [assumption|reflexivity|reflexivity]).
  assert (Key : handle cov s (TransformSettles n o) = s1).
  { unfold handle. cbn [dispatch]. rewrite Hn.
    replace (transformSettled o captured (setPending (remove_nth n (pending s)) s)) with s1;
      [exact R1|].
    unfold transformSettled. destruct o as [m|[|] st [d|m]]; cbn in Hf; try discriminate;
      inversion Hf; subst; reflexivity. }
  rewrite Key. repeat split.
  unfold handle. cbn [dispatch].
  replace (isOnline (backendStatus s1)) with false by reflexivity.
  cbn [negb]. rewrite orb_true_r, andb_false_r. exact R1.
Qed.

(** X3.  When the answer says [success] and its [result] is missing or does
    not load as an image, then after the load has failed the banner shows
    [Failed to load processed image] and nothing else has changed: the images,
    the canvases, the mask and the backend status are as before the answer. *)
Theorem result_not_an_image cov s n rq captured status data :
  rendered s ->
  nth_error (pending s) n = Some (Transform rq captured) ->
  success data = true -> decodeSrc (result data) = None ->
  let s1 := handle cov s (TransformSettles n (Responded true status (inl data))) in
  let s2 := handle cov s1 (Fire (length (pending s1) - 1)) in
  error s2 = Some "Failed to load processed image" /\
  isProcessing s2 = false /\ backendStatus s2 = backendStatus s /\
  image s2 = image s /\ originalImage s2 = originalImage s /\
  canvasRef s2 = canvasRef s /\ maskCanvasRef s2 = maskCanvasRef s /\
  sent s2 = sent s /\ pending s2 = remove_nth n (pending s).
Proof.
  intros Hr Hn Hs Hd. cbv zeta.
  set (l := remove_nth n (pending s)).
  set (s1 := setIsProcessing false (addTask (ResultImage (result data) captured) (setPending l s))).
  assert (Key : handle cov s (TransformSettles n (Responded true status (inl data))) = s1).
  { unfold handle. cbn [dispatch]. rewrite Hn. unfold transformSettled. rewrite Hs.
    apply (render_frame s); [assumption|reflexivity|reflexivity]. }
  rewrite Key.
  unfold handle. cbn [dispatch].
  replace (pending s1) with (l ++ [ResultImage (result data) captured])%list by reflexivity.
  rewrite nth_error_last, remove_nth_last. cbn [isLocal runTask].
  unfold resultImageDone. rewrite Hd.
  rewrite (render_frame s) by (assumption || reflexivity).
  repeat split.
Qed.

(** X4.  A request goes out on a click on Apply and on nothing else, and only
    while the editor is shown with its mask canvas, no request is being
    processed and the backend is online: painting, clearing, resetting and
    the callbacks never call the backend. *)
Theorem only_apply_sends cov s ev :
  sent (handle cov s ev) <> sent s ->
  ev = ClickApply /\ image s <> None /\ maskCanvasRef s <> None /\
  isProcessing s = false /\ backendStatus s = Online.
Proof.
  unfold handle. rewrite render_sent.
  destruct ev; cbn [dispatch];
    try (unfold_handlers; split_cases; state_simpl; intros H; exfalso; apply H; reflexivity).
  unfold editorShown, applyProcessing, processingFailed.
  destruct (image s) eqn:Ei, (isProcessing s) eqn:Ep, (backendStatus s) eqn:Eb;
    cbn [isOnline negb orb andb]; try (intros H; exfalso; apply H; reflexivity).
  destruct (maskCanvasRef s) eqn:Em; [|intros H; exfalso; apply H; reflexivity].
  intros _. repeat split; discriminate.
Qed.

(** *** Painting *)

(** [getMousePos] rounds as the doubles of the code do: on a canvas one pixel
    wide that is shown five pixels wide, a pointer three pixels in is at
    [3 * (1 / 5)], the double 0.6000000000000001 and not the double nearest to
    3/5. *)
Lemma getMousePos_in_doubles :
  let pos := getMousePos (mkMouseEvent 3 0 0 0 5 1) (editing imgA imgA imgA blackMask) in
  pos = (0x1.3333333333334p-1%float, 0%float) /\
  PrimFloat.eqb (fst pos) 0x1.3333333333333p-1%float = false.
Proof. split; reflexivity. Qed.

(** X5.  A stroke ends when the button is released or the pointer leaves the
    canvas: a mouse move that follows paints nothing and registers no preview,
    the state stays as the release left it. *)
Theorem no_paint_after_release cov s e :
  handle cov (handle cov s MouseUp) (MouseMove e) = handle cov s MouseUp /\
  handle cov (handle cov s MouseLeave) (MouseMove e) = handle cov s MouseLeave.
Proof.
  assert (G : forall s0, isDrawing s0 = false ->
                handle cov (render s0) (MouseMove e) = render s0).
  { intros s0 H. unfold handle. cbn [dispatch]. unfold draw.
    rewrite render_isDrawing, H. cbn [negb andb].
    destruct (editorShown (render s0)); apply render_idem. }
  unfold handle at 2 3 5 6. cbn [dispatch]. unfold stopDrawing.
  destruct (editorShown s) eqn:Es.
  - split; apply G; reflexivity.
  - assert (Hi : image s = None) by (unfold editorShown in Es; destruct (image s); congruence).
    assert (E : handle cov (render s) (MouseMove e) = render s).
    { unfold handle. cbn [dispatch]. unfold editorShown. rewrite render_image, Hi.
      apply render_idem. }
    split; exact E.
Qed.

(** X6.  A paint event (a press, or a move while the button is down) only adds
    to the selection: the mask keeps its size and stays opaque, no mask value
    decreases, and afterwards a pixel is selected exactly when the brush disc
    covers it or it was selected before. *)
Theorem stroke_only_adds cov s ev e u c m :
  ev = MouseDown e \/ (ev = MouseMove e /\ isDrawing s = true) ->
  image s = Some u -> canvasRef s = Some c -> maskCanvasRef s = Some m ->
  maskReady m -> 0 <= brushSize s ->
  exists m',
    maskCanvasRef (handle cov s ev) = Some m' /\
    width m' = width m /\ height m' = height m /\
    length (pixels m') = length (pixels m) /\ maskReady m' /\
    forall j, (j < length (pixels m))%nat ->
      red (nth j (pixels m) transparent) <= red (nth j (pixels m') transparent) /\
      selected m' j
      = ((let (x, y) := getMousePos e s in
          PrimFloat.is_finite x && PrimFloat.is_finite y
          && (clamp255 (cov x y (brushSize s) (width m) (height m) j) >? 0))
         || selected m j).
Proof.
  intros Hev Hi Hc Hm Rm Hb.
  assert (Hb' : (brushSize s <? 0) = false) by (apply Z.ltb_ge; lia).
  set (m1 := fillDisc cov (getMousePos e s) (brushSize s) m).
  assert (E : maskCanvasRef (handle cov s ev) = Some m1).
  { unfold handle.
    destruct Hev as [->|[-> Hd]]; cbn [dispatch]; unfold editorShown; rewrite Hi;
      unfold startDrawing, draw; rewrite ?Hd; cbn [negb andb]; rewrite ?andb_false_r;
      rewrite Hm, Hc, Hb'; fold m1;
      rewrite (render_shown _ u c) by (state_simpl; assumption); reflexivity. }
  exists m1. split; [exact E|].
  destruct (fillDisc_shape cov (getMousePos e s) (brushSize s) m) as (Ew & Eh & El).
  repeat split; try assumption.
  - now apply fillDisc_ready.
  - now apply fillDisc_grows.
  - now apply fillDisc_selection.
Qed.

(** X7.  With an opaque working image of the canvases' size, a press and the
    preview callback it registers leave on the canvas the working image with
    the highlight over exactly the selected pixels of the new mask, whatever
    the canvas showed before; the stored working image is not changed. *)
Theorem preview_shows_selection cov s e u0 u img c m :
  image s = Some u0 -> originalImage s = Some u -> decode u = Some img ->
  canvasRef s = Some c -> maskCanvasRef s = Some m ->
  0 <= brushSize s ->
  wf_bitmap img -> wf_bitmap c -> wf_bitmap m ->
  width c = width img -> height c = height img ->
  width m = width img -> height m = height img ->
  all_opaque img ->
  let s1 := handle cov s (MouseDown e) in
  let s2 := handle cov s1 (Fire (length (pending s1) - 1)) in
  exists m1,
    maskCanvasRef s1 = Some m1 /\ maskCanvasRef s2 = Some m1 /\
    canvasRef s2 = Some (expectedPreview img m1) /\
    originalImage s2 = Some u /\ pending s2 = pending s.
Proof.
  intros Hi Ho Hd Hc Hm Hb Wi Wc Wm Ew Eh Ew' Eh' Op. cbv zeta.
  assert (Hb' : (brushSize s <? 0) = false) by (apply Z.ltb_ge; lia).
  set (m1 := fillDisc cov (getMousePos e s) (brushSize s) m).
  assert (W1 : wf_bitmap m1 /\ width m1 = width img /\ height m1 = height img).
  { destruct (fillDisc_shape cov (getMousePos e s) (brushSize s) m) as (E1 & F1 & _).
    fold m1 in E1, F1. repeat split; [now apply fillDisc_wf|congruence|congruence]. }
  destruct W1 as (W1 & E1 & F1).
  set (s1 := setIsDrawing true (addTask (PreviewImage (Some u) (epoch s)) (putMask m1 s))).
  assert (Key : handle cov s (MouseDown e) = s1).
  { unfold handle. cbn [dispatch]. unfold editorShown. rewrite Hi.
    unfold startDrawing, draw. cbn [negb andb]. rewrite andb_false_r, Hm, Hc, Hb', Ho.
    fold m1. apply (render_shown _ u0 c); assumption. }
  rewrite Key. exists m1. split; [reflexivity|].
  unfold handle. cbn [dispatch].
  replace (pending s1) with (pending s ++ [PreviewImage (Some u) (epoch s)])%list by reflexivity.
  rewrite nth_error_last, remove_nth_last. cbn [isLocal runTask].
  set (s1' := setPending (pending s) s1).
  assert (P : canvasRef (previewImageDone (Some u) (epoch s1') s1')
              = Some (expectedPreview img m1)).
  { apply (preview_opaque (Some u) img c m1 s1'); try assumption; reflexivity. }
  change (epoch s1') with (epoch s) in P.
  assert (Q1 : previewImageDone (Some u) (epoch s) s1' = putCanvas (expectedPreview img m1) s1').
  { revert P. unfold previewImageDone.
    replace (epoch s1') with (epoch s) by reflexivity. rewrite Nat.eqb_refl.
    cbn [negb decodeSrc]. rewrite Hd.
    replace (canvasRef s1') with (Some c) by (symmetry; exact Hc).
    replace (maskCanvasRef s1') with (Some m1) by reflexivity.
    cbn [canvasRef putCanvas]. intros P. inversion P as [P']. now rewrite P'. }
  rewrite Q1.
  rewrite (render_shown _ u0 (expectedPreview img m1)) by (state_simpl; reflexivity || assumption).
  state_simpl. repeat split. assumption.
Qed.

(** X8.  With an opaque working image of the canvas's size, a click on Clear
    Mask and the redraw it registers leave no pixel selected and the canvas
    showing the working image itself, without highlight; the stored images, the
    mask's size and the list of sent requests are unchanged. *)
Theorem clear_mask_shows_working_image cov s u0 u img c m :
  image s = Some u0 -> originalImage s = Some u -> decode u = Some img ->
  canvasRef s = Some c -> maskCanvasRef s = Some m ->
  wf_bitmap img -> wf_bitmap c -> width c = width img -> height c = height img ->
  all_opaque img ->
  let s1 := handle cov s ClickClearMask in
  let s2 := handle cov s1 (Fire (length (pending s1) - 1)) in
  canvasRef s2 = Some img /\
  (exists m', maskCanvasRef s2 = Some m' /\ allZero m' /\
              width m' = width m /\ height m' = height m /\
              length (pixels m') = length (pixels m)) /\
  originalImage s2 = Some u /\ image s2 = Some u0 /\
  sent s2 = sent s /\ pending s2 = pending s.
Proof.
  intros Hi Ho Hd Hc Hm Wi Wc Ew Eh Op. cbv zeta.
  set (s1 := addTask (RedrawImage (Some u) (epoch s)) (putMask (fillRectAll black m) s)).
  assert (Key : handle cov s ClickClearMask = s1).
  { unfold handle. cbn [dispatch]. unfold editorShown. rewrite Hi.
    unfold clearMask. rewrite Hm, Hc, Ho.
    apply (render_shown _ u0 c); assumption. }
  rewrite Key. unfold handle. cbn [dispatch].
  replace (pending s1) with (pending s ++ [RedrawImage (Some u) (epoch s)])%list by reflexivity.
  rewrite nth_error_last, remove_nth_last. cbn [isLocal runTask].
  unfold redrawImageDone, s1. state_simpl. rewrite Nat.eqb_refl. cbn [negb decodeSrc].
  rewrite Hd, Hc. rewrite (drawImage_opaque img c) by assumption.
  rewrite (render_shown _ u0 img) by (state_simpl; reflexivity || assumption).
  state_simpl. repeat split; try assumption.
  exists (fillRectAll black m). repeat split.
  - apply cleared_all_zero.
  - cbn [fillRectAll pixels]. apply length_map.
Qed.

(** X10.  In the editor, [k] clicks on plus take a brush size [b] within
    [5, 100] to [min 100 (b + 5 k)], and [k] clicks on minus take it to
    [max 5 (b - 5 k)]. *)
Theorem brush_after_clicks cov s k u :
  image s = Some u -> 5 <= brushSize s <= 100 ->
  brushSize (run cov s (repeat ClickPlus k)) = Z.min 100 (brushSize s + 5 * Z.of_nat k) /\
  brushSize (run cov s (repeat ClickMinus k)) = Z.max 5 (brushSize s - 5 * Z.of_nat k).
Proof.
  revert s. induction k as [|k IH]; intros s Hi Hb.
  - cbn [repeat run fold_left]. lia.
  - cbn [repeat]. rewrite !run_cons.
    assert (Es : editorShown s = true) by (unfold editorShown; now rewrite Hi).
    destruct (brush_buttons cov s Es) as [Bm Bp].
    split.
    + destruct (IH (handle cov s ClickPlus)) as [-> _].
      * unfold handle. rewrite render_image. cbn [dispatch]. rewrite Es. exact Hi.
      * rewrite Bp. lia.
      * rewrite Bp. lia.
    + destruct (IH (handle cov s ClickMinus)) as [_ ->].
      * unfold handle. rewrite render_image. cbn [dispatch]. rewrite Es. exact Hi.
      * rewrite Bm. lia.
      * rewrite Bm. lia.
Qed.

(** *** The images and the canvases stay in step *)

Lemma blank_wf w h : wf_bitmap (blank w h).
Proof. unfold wf_bitmap, blank. cbn [width height pixels]. apply repeat_length. Qed.

Lemma setHeight_wf h c : wf_bitmap (setHeight h c).
Proof. apply blank_wf. Qed.

Lemma drawImage_wf img c : wf_bitmap c -> wf_bitmap (drawImage img c).
Proof. unfold wf_bitmap, drawImage. cbn [width height pixels]. now rewrite mapi_length. Qed.

Lemma fillRectAll_wf p c : wf_bitmap c -> wf_bitmap (fillRectAll p c).
Proof. unfold wf_bitmap, fillRectAll. cbn [width height pixels]. now rewrite length_map. Qed.

Lemma fillRect1_shape p x y c :
  width (fillRect1 p x y c) = width c /\ height (fillRect1 p x y c) = height c /\
  length (pixels (fillRect1 p x y c)) = length (pixels c).
Proof.
  unfold fillRect1. destruct ((x <? _)%nat && (y <? _)%nat); cbn [width height pixels];
    rewrite ?mapi_length; repeat split.
Qed.

(** The preview loop keeps the canvas's size, whatever the mask's. *)
Lemma overlayLoop_shape m c :
  width (overlayLoop m c) = width c /\ height (overlayLoop m c) = height c /\
  length (pixels (overlayLoop m c)) = length (pixels c).
Proof.
  unfold overlayLoop. generalize (seq 0 (length (getImageData m) / 4)). intros l.
  revert c. induction l as [|k l IH]; intros c; cbn [fold_left]; [repeat split|].
  destruct (nth (4 * k) (getImageData m) 0 >? 0); [|apply IH].
  destruct (IH (fillRect1 (withAlpha alpha40 redColour)
                  ((4 * k / 4) mod Pos.to_nat (width m))
                  ((4 * k / 4) / Pos.to_nat (width m)) c)) as (-> & -> & ->).
  apply fillRect1_shape.
Qed.

Lemma overlayLoop_wf m c : wf_bitmap c -> wf_bitmap (overlayLoop m c).
Proof.
  unfold wf_bitmap. destruct (overlayLoop_shape m c) as (-> & -> & ->). auto.
Qed.

Lemma overlayLoop_width m c : width (overlayLoop m c) = width c.
Proof. apply overlayLoop_shape. Qed.

Lemma overlayLoop_height m c : height (overlayLoop m c) = height c.
Proof. apply overlayLoop_shape. Qed.

Lemma black_ready m : maskReady (fillRectAll black m).
Proof.
  unfold maskReady. rewrite fillRectAll_black. cbn [pixels].
  apply Forall_forall. intros p Hp. apply in_map_iff in Hp as [? [<- _]].
  split; [reflexivity|cbn; lia].
Qed.

Lemma consistent_render s : consistent s -> render s = s.
Proof.
  unfold consistent, render.
  destruct (image s), (originalImage s), (canvasRef s), (maskCanvasRef s);
    try contradiction; reflexivity.
Qed.

Lemma fillDisc_width cov pos r m : width (fillDisc cov pos r m) = width m.
Proof. apply fillDisc_shape. Qed.

Lemma fillDisc_height cov pos r m : height (fillDisc cov pos r m) = height m.
Proof. apply fillDisc_shape. Qed.

Create HintDb canvas.
#[local] Hint Resolve blank_wf setHeight_wf drawImage_wf fillRectAll_wf overlayLoop_wf
  black_ready fillDisc_wf fillDisc_ready : canvas.

Ltac consistent_goal :=
  unfold consistent; state_simpl;
  repeat match goal with
         | H : ?f ?s = _ |- context [?f ?s] => rewrite H
         end;
  rewrite ?overlayLoop_width, ?overlayLoop_height, ?fillDisc_width, ?fillDisc_height;
  try exact I;
  try (intuition (auto with canvas)).

Lemma dispatch_consistent cov ev s :
  ev <> ClickNewImage -> consistent s -> consistent (dispatch cov ev s).
Proof.
  intros Hev H. destruct ev; try congruence; cbn [dispatch].
  all: try (match goal with
            | |- context [nth_error ?l ?n] =>
                let t := fresh "t" in
                destruct (nth_error l n) as [t|]; [destruct t; try assumption|assumption]
            end).
  all: unfold_handlers; unfold applyProcessing, processingFailed, editorShown; state_simpl.
  all: unfold consistent in H.
  all: destruct (image s) eqn:Hi, (originalImage s) eqn:Ho,
                (canvasRef s) eqn:Hc, (maskCanvasRef s) eqn:Hm; try contradiction.
  all: split_cases; consistent_goal.
  destruct src; [consistent_goal|discriminate].
Qed.

Lemma consistent_handle cov ev s : consistent s -> consistent (handle cov s ev).
Proof.
  intros H. unfold handle.
  assert (D : ev = ClickNewImage \/ ev <> ClickNewImage)
    by (destruct ev; (now left) || (right; discriminate)).
  destruct D as [->|Hev].
  - cbn [dispatch]. unfold editorShown, newImage, render. unfold consistent in *.
    destruct (image s) eqn:Hi, (originalImage s) eqn:Ho,
             (canvasRef s) eqn:Hc, (maskCanvasRef s) eqn:Hm; try contradiction;
      state_simpl; rewrite ?Hi, ?Hc; state_simpl; rewrite ?Ho, ?Hm; exact I.
  - pose proof (dispatch_consistent cov ev s Hev H) as Hd.
    now rewrite (consistent_render _ Hd).
Qed.

(** X11.  The stored images and the canvases stay in step.  In the first
    render, and after every sequence of events from a state where this holds:
    either [image] and [originalImage] are both null and no canvas is mounted,
    or both are set and both canvases are mounted, each holding as many pixels
    as its size says, the mask canvas of the canvas's width and height and
    opaque with its values in [0, 255]. *)
Theorem consistent_preserved :
  consistent init /\
  forall cov s evs, consistent s -> consistent (run cov s evs).
Proof.
  split; [exact I|].
  intros cov s evs; revert s; induction evs as [|ev evs IH]; intros s H; cbn; [assumption|].
  apply IH. now apply consistent_handle.
Qed.

(** X12.  In a state where images and canvases are in step, a click on the
    enabled Apply button always sends exactly one request: its image is the
    stored working image, never null, its mask is the content of the mask
    canvas; [isProcessing] is set and the banner is cleared. *)
Theorem enabled_apply_always_sends cov s :
  consistent s -> image s <> None -> isProcessing s = false -> backendStatus s = Online ->
  exists u m,
    originalImage s = Some u /\ maskCanvasRef s = Some m /\
    sent (handle cov s ClickApply)
    = transformRequest (mode s) (Some u) (toDataURL m) :: sent s /\
    isProcessing (handle cov s ClickApply) = true /\
    error (handle cov s ClickApply) = None.
Proof.
  intros H Hn Hp Hb.
  unfold handle. rewrite render_sent, render_isProcessing, render_error.
  cbn [dispatch]. unfold editorShown. rewrite Hp, Hb. cbn [isOnline orb negb].
  unfold consistent in H.
  destruct (image s) eqn:Hi, (originalImage s) as [u|] eqn:Ho,
           (canvasRef s) eqn:Hc, (maskCanvasRef s) as [m|] eqn:Hm; try contradiction;
    try congruence.
  cbn [andb]. destruct H as (Wc & Wm & Ew & Eh & Rm).
  assert (Hne : pixels m <> []).
  { unfold wf_bitmap, area in Wm. pose proof (Pos2Nat.is_pos (width m * height m)).
    destruct (pixels m); [cbn in Wm; lia|discriminate]. }
  assert (Hop : all_opaque m).
  { unfold all_opaque. unfold maskReady in Rm. eapply Forall_impl; [|exact Rm].
    intros p [Hp' _]. exact Hp'. }
  exists u, m. split; [reflexivity|]. split; [reflexivity|].
  unfold applyProcessing. rewrite Hb, Hm. cbn [isOnline negb].
  rewrite (hasContent_opaque m Hne Hop). cbn [negb]. state_simpl. rewrite Ho.
  repeat split.
Qed.

(** With no image and no canvas, no event loads an image, mounts a canvas or
    sends a request. *)
Lemma unloaded_handle cov ev s :
  image s = None /\ canvasRef s = None ->
  image (handle cov s ev) = None /\ canvasRef (handle cov s ev) = None /\
  sent (handle cov s ev) = sent s.
Proof.
  intros [Hi Hc]. unfold handle.
  assert (Hd : image (dispatch cov ev s) = None /\ canvasRef (dispatch cov ev s) = None /\
               sent (dispatch cov ev s) = sent s).
  { destruct ev; cbn [dispatch]; unfold editorShown; rewrite ?Hi; cbn [andb];
      unfold_handlers; state_simpl; rewrite ?Hc; split_cases; state_simpl;
      rewrite ?Hc, ?Hi; repeat split; assumption. }
  destruct Hd as (Hi' & Hc' & Hs'). rewrite (render_hidden _ Hi' Hc'). now repeat split.
Qed.

(** X13.  New Image ends the editing session for good: after the click, and
    after any events that follow it, callbacks and answers left pending by the
    session included, no image is loaded, no canvas is mounted and no further
    request has been sent. *)
Theorem new_image_ends_session cov s evs :
  let s0 := handle cov s ClickNewImage in
  image (run cov s0 evs) = None /\ canvasRef (run cov s0 evs) = None /\
  sent (run cov s0 evs) = sent s.
Proof.
  cbv zeta.
  assert (H0 : image (handle cov s ClickNewImage) = None /\
               canvasRef (handle cov s ClickNewImage) = None /\
               sent (handle cov s ClickNewImage) = sent s).
  { unfold handle. rewrite render_sent, render_image. cbn [dispatch].
    unfold editorShown, newImage, render.
    destruct (image s) eqn:Hi; state_simpl; rewrite ?Hi;
      destruct (canvasRef s) eqn:Hc; state_simpl; rewrite ?Hc; repeat split. }
  destruct H0 as (Hi & Hc & Hs). rewrite <- Hs. clear Hs.
  generalize dependent (handle cov s ClickNewImage). clear s.
  induction evs as [|ev evs IH]; intros s0 Hi Hc; [now repeat split|].
  rewrite run_cons.
  destruct (unloaded_handle cov ev s0 (conj Hi Hc)) as (Hi' & Hc' & Hs').
  destruct (IH _ Hi' Hc') as (A & B & C).
  repeat split; try assumption. congruence.
Qed.

(** *** Downloading *)

Lemma append_inv_tail (a b t : string) : a ++ t = b ++ t -> a = b.
Proof.
  assert (L : forall x y, String.length (x ++ y) = (String.length x + String.length y)%nat).
  { induction x as [|c x IH]; intros y; cbn; [reflexivity|now rewrite IH]. }
  revert b. induction a as [|c a IH]; intros [|d b] H; cbn in H.
  - reflexivity.
  - apply (f_equal String.length) in H. cbn in H. rewrite L in H. lia.
  - apply (f_equal String.length) in H. cbn in H. rewrite L in H. lia.
  - inversion H; subst. f_equal. now apply IH.
Qed.

(** The decimal notation of an integer determines it. *)
Lemma string_of_Z_inj (a b : Z) :
  NilZero.string_of_int (Z.to_int a) = NilZero.string_of_int (Z.to_int b) -> a = b.
Proof.
  intros H. apply (f_equal NilZero.int_of_string) in H.
  assert (N : forall z, Z.to_int z <> Decimal.Pos Decimal.Nil /\
                        Z.to_int z <> Decimal.Neg Decimal.Nil).
  { intros [|p|p]; cbn; split; try discriminate; intros E; inversion E as [E'];
      now apply Unsigned.to_uint_nonnil in E'. }
  rewrite !NilZero.isi in H by apply N.
  inversion H as [H']. now apply DecimalZ.to_int_inj.
Qed.

(** X14.  Download exports the canvas as it is shown, under the file name
    [blur-processed-<now>.png] or [inpaint-processed-<now>.png], by the mode,
    with the time of the click in decimal digits: two downloads get the same
    name exactly when they are made in the same mode at the same
    millisecond. *)
Theorem download_file_names s s' c c' now now' :
  canvasRef s = Some c -> canvasRef s' = Some c' ->
  let prefix m :=
    match m with Blur => "blur-processed-" | Inpaint => "inpaint-processed-" end in
  exists digits digits',
    NilZero.int_of_string digits = Some (Z.to_int now) /\
    NilZero.int_of_string digits' = Some (Z.to_int now') /\
    downloadImage now s = Some (prefix (mode s) ++ digits ++ ".png", toDataURL c) /\
    downloadImage now' s' = Some (prefix (mode s') ++ digits' ++ ".png", toDataURL c') /\
    (prefix (mode s) ++ digits ++ ".png" = prefix (mode s') ++ digits' ++ ".png"
     <-> mode s = mode s' /\ now = now').
Proof.
  intros Hc Hc' prefix. unfold downloadImage. rewrite Hc, Hc'.
  assert (N : forall z, Z.to_int z <> Decimal.Pos Decimal.Nil /\
                        Z.to_int z <> Decimal.Neg Decimal.Nil).
  { intros [|p|p]; cbn; split; try discriminate; intros E; inversion E as [E'];
      now apply Unsigned.to_uint_nonnil in E'. }
  exists (NilZero.string_of_int (Z.to_int now)), (NilZero.string_of_int (Z.to_int now')).
  split; [apply NilZero.isi; apply N|]. split; [apply NilZero.isi; apply N|].
  split; [unfold prefix; now destruct (mode s)|].
  split; [unfold prefix; now destruct (mode s')|].
  split.
  - intros H. unfold prefix in H. destruct (mode s), (mode s'); cbn [append] in H;
      try discriminate; inversion H as [H']; apply append_inv_tail in H';
      apply string_of_Z_inj in H'; now split.
  - now intros [-> ->].
Qed.

(** A download in blur mode at the millisecond 1700000000000. *)
Lemma download_file_name_example :
  downloadImage 1700000000000 (editing imgA imgA imgA blackMask)
  = Some ("blur-processed-1700000000000.png", DataImage imgA).
Proof. reflexivity. Qed.

(** *** The earlier revision *)

Lemma clearRectAll_blank w h : clearRectAll (blank w h) = blank w h.
Proof.
  unfold clearRectAll, blank. cbn [width height pixels]. f_equal.
  induction (area w h) as [|n IH]; cbn; [reflexivity|now rewrite IH].
Qed.

(** X15.  [BlurTool] takes any file, of any type and size, and reports
    nothing: the read is always started, no path of the upload raises an
    alert, and the file is recorded (as [image] and [originalImage], the canvas
    showing it, the mask fully transparent) exactly when its content decodes
    and both canvases are mounted; otherwise images and canvases are as they
    were. *)
Theorem blurTool_upload_is_silent f u s :
  let s1 := BlurTool.fileReadDone f (BlurTool.handleImageUpload (Some f) s) in
  let s2 := BlurTool.uploadImageDone u s1 in
  (BlurTool.pending s1
   = BlurTool.pending s ++ FileRead f :: match fresult f with
                                         | Some v => [UploadImage v]
                                         | None => []
                                         end)%list /\
  BlurTool.alerts s2 = BlurTool.alerts s /\
  ((exists img c m,
      decode u = Some img /\ BlurTool.canvasRef s = Some c /\ BlurTool.maskCanvasRef s = Some m /\
      BlurTool.image s2 = Some u /\ BlurTool.originalImage s2 = Some u /\
      BlurTool.canvasRef s2 = Some (drawImage img (blank (width img) (height img))) /\
      BlurTool.maskCanvasRef s2 = Some (blank (width img) (height img)))
   \/
   ((decode u = None \/ BlurTool.canvasRef s = None \/ BlurTool.maskCanvasRef s = None) /\
    BlurTool.image s2 = BlurTool.image s /\
    BlurTool.originalImage s2 = BlurTool.originalImage s /\
    BlurTool.canvasRef s2 = BlurTool.canvasRef s /\
    BlurTool.maskCanvasRef s2 = BlurTool.maskCanvasRef s)).
Proof.
  cbv zeta. unfold BlurTool.handleImageUpload, BlurTool.fileReadDone, BlurTool.uploadImageDone.
  split.
  { destruct (fresult f); cbn; [now rewrite <- app_assoc|reflexivity]. }
  destruct (decode u) as [img|] eqn:Hd.
  2:{ split; [destruct (fresult f); reflexivity|]. right.
      destruct (fresult f); cbn; repeat split; now left. }
  destruct (BlurTool.canvasRef s) as [c|] eqn:Hc.
  2:{ destruct (fresult f); cbn; rewrite Hc; (split; [reflexivity|]); right; cbn;
        rewrite ?Hc; repeat split; right; now left. }
  destruct (BlurTool.maskCanvasRef s) as [m|] eqn:Hm.
  2:{ destruct (fresult f); cbn; rewrite Hc, Hm; (split; [reflexivity|]); right; cbn;
        rewrite ?Hc, ?Hm; repeat split; right; now right. }
  destruct (fresult f); cbn; rewrite Hc, Hm; (split; [reflexivity|]); left;
    exists img, c, m; cbn; unfold setHeight, setWidth; cbn [width height];
    rewrite clearRectAll_blank; repeat split.
Qed.

(** X16.  In [BlurTool], with both canvases mounted, Apply sends one request
    and sets [isProcessing]; however the request settles, [isProcessing] is
    cleared again and the images and canvases are untouched.  An answer with
    [success] registers the load of the result; an answer without raises the
    alert [Error: ] followed by the answer's [error], printed as [undefined]
    when the field is missing; a rejected fetch or a body that is not JSON
    raises the connection alert.  The response's status is not looked at. *)
Theorem blurTool_request_settles o s c m :
  BlurTool.canvasRef s = Some c -> BlurTool.maskCanvasRef s = Some m ->
  let s1 := BlurTool.applyProcessing s in
  let s2 := BlurTool.transformSettled o (BlurTool.originalImage s) s1 in
  BlurTool.isProcessing s1 = true /\ BlurTool.isProcessing s2 = false /\
  BlurTool.sent s2
  = BlurTool.transformRequest (BlurTool.mode s) (BlurTool.originalImage s) (toDataURL m)
    :: BlurTool.sent s /\
  BlurTool.image s2 = BlurTool.image s /\
  BlurTool.originalImage s2 = BlurTool.originalImage s /\
  BlurTool.canvasRef s2 = Some c /\ BlurTool.maskCanvasRef s2 = Some m /\
  match o with
  | Responded _ _ (inl data) =>
      if success data
      then BlurTool.alerts s2 = BlurTool.alerts s /\
           In (ResultImage (result data) (BlurTool.originalImage s)) (BlurTool.pending s2)
      else BlurTool.alerts s2
           = ("Error: " ++ match errorField data with
                           | Some e => e
                           | None => "undefined"
                           end) :: BlurTool.alerts s
  | _ =>
      BlurTool.alerts s2
      = "Failed to connect to backend. Make sure the API is running on port 5000."
        :: BlurTool.alerts s
  end.
Proof.
  intros Hc Hm. cbv zeta. unfold BlurTool.applyProcessing. rewrite Hc, Hm.
  unfold BlurTool.transformSettled.
  destruct o as [msg|ok st [data|msg]]; cbn; rewrite ?Hc, ?Hm; try (repeat split; assumption).
  destruct (success data); cbn; rewrite ?Hc, ?Hm; repeat split.
  apply in_or_app. right. now left.
Qed.

(** A white stroke on such a pixel. *)
Lemma stroke_on_clear (a : Z) (d : Pixel) :
  0 <= a <= 255 -> BlurTool.whiteOrClear d ->
  let p := over (withAlpha a white) d in
  BlurTool.whiteOrClear p /\ (red p >? 0) = ((a >? 0) || (red d >? 0)).
Proof.
  intros Ha [->|(Hr & Hg & Hb & Hal)]; cbv zeta.
  - unfold over, withAlpha, white, transparent. cbn [alpha red green blue].
    rewrite (div_round_mul_l a 255) by lia.
    replace (255 * a + 0 * (255 - a)) with (255 * a) by ring.
    destruct (Z.eq_dec a 0) as [->|Na].
    + cbn. split; [now left|reflexivity].
    + replace (255 * a =? 0) with false by (symmetry; apply Z.eqb_neq; lia).
      replace (255 * 255 * a + 0 * 0 * (255 - a)) with (255 * (255 * a)) by ring.
      rewrite (div_round_mul 255 (255 * a)), (div_round_mul_l a 255) by lia.
      cbn [red]. split.
      * right. cbn [red green blue alpha]. lia.
      * replace (a >? 0) with true by (symmetry; apply Z.gtb_lt; lia). reflexivity.
  - unfold over, withAlpha, white. cbn [alpha red green blue].
    rewrite (div_round_mul_l a 255) by lia. rewrite Hr, Hg, Hb.
    set (ao := 255 * a + alpha d * (255 - a)).
    assert (Hao : 255 <= ao <= 65025) by (unfold ao; nia).
    replace (ao =? 0) with false by (symmetry; apply Z.eqb_neq; lia).
    replace (255 * 255 * a + 255 * alpha d * (255 - a)) with (255 * ao) by (unfold ao; ring).
    rewrite (div_round_mul 255 ao) by lia. cbn [red]. split.
    + right. cbn [red green blue alpha]. repeat split; unfold div_round.
      * apply Z.div_le_lower_bound; lia.
      * assert ((2 * ao + 255) / (2 * 255) < 256) by (apply Z.div_lt_upper_bound; lia). lia.
    + cbn. now rewrite orb_true_r.
Qed.

(** X17.  In [BlurTool] the colour channels of the mask are binary whatever the
    anti-aliasing: on a mask whose pixels are each untouched (transparent) or
    white with some alpha, as an upload leaves it, [draw] leaves such a mask of
    the same size, and when it paints, a pixel is selected afterwards exactly
    when the brush disc covers it or it was selected before. *)
Theorem blurTool_mask_stays_binary cov down e s c m :
  BlurTool.canvasRef s = Some c -> BlurTool.maskCanvasRef s = Some m ->
  Forall BlurTool.whiteOrClear (pixels m) ->
  exists m',
    BlurTool.maskCanvasRef (BlurTool.draw cov down e s) = Some m' /\
    width m' = width m /\ height m' = height m /\
    length (pixels m') = length (pixels m) /\
    Forall BlurTool.whiteOrClear (pixels m') /\
    ((BlurTool.isDrawing s = true \/ down = true) -> 0 <= BlurTool.brushSize s ->
     forall j, (j < length (pixels m))%nat ->
       selected m' j
       = ((let (x, y) := BlurTool.getMousePos e c in
           PrimFloat.is_finite x && PrimFloat.is_finite y
           && (clamp255 (cov x y (BlurTool.brushSize s) (width m) (height m) j) >? 0))
          || selected m j)).
Proof.
  intros Hc Hm Hw. unfold BlurTool.draw. rewrite Hc, Hm.
  assert (Keep : exists m', Some m = Some m' /\
            width m' = width m /\ height m' = height m /\
            length (pixels m') = length (pixels m) /\
            Forall BlurTool.whiteOrClear (pixels m'))
    by (exists m; repeat split; assumption).
  destruct (negb (BlurTool.isDrawing s) && negb down) eqn:Eg.
  { rewrite Hm. destruct Keep as (m' & E & K). exists m'. split; [exact E|].
    repeat split; try apply K. intros [Hd|Hd]; rewrite Hd in Eg; cbn in Eg;
      rewrite ?andb_false_r in Eg; discriminate. }
  destruct (BlurTool.brushSize s <? 0) eqn:Eb.
  { rewrite Hm. destruct Keep as (m' & E & K). exists m'. split; [exact E|].
    repeat split; try apply K. intros _ Hb. apply Z.ltb_lt in Eb. lia. }
  cbn [BlurTool.maskCanvasRef BlurTool.addTask BlurTool.putMask].
  unfold fillDisc. destruct (BlurTool.getMousePos e c) as [x y].
  destruct (PrimFloat.is_finite x && PrimFloat.is_finite y); cbn [andb orb].
  2:{ exists m. repeat split; assumption. }
  set (f := cov x y (BlurTool.brushSize s) (width m) (height m)).
  exists (fillPath f m). split; [reflexivity|].
  cbn [fillPath width height pixels]. rewrite mapi_length.
  repeat split.
  - rewrite Forall_forall in *. intros p Hp.
    apply In_nth_error in Hp as [j Hj]. rewrite mapi_nth_error in Hj.
    destruct (nth_error (pixels m) j) as [d|] eqn:Ed; [|discriminate].
    cbn in Hj. inversion Hj; subst p.
    apply (stroke_on_clear (clamp255 (f j)) d (clamp255_range _)).
    apply Hw. eapply nth_error_In; eauto.
  - intros _ _ j Hj. unfold selected.
    change (mapi (fun j0 d => over (withAlpha (clamp255 (f j0)) white) d) (pixels m))
      with (pixels (fillPath f m)).
    rewrite fillPath_nth by assumption.
    apply (stroke_on_clear (clamp255 (f j)) _ (clamp255_range _)).
    rewrite Forall_forall in Hw. apply Hw. now apply nth_In.
Qed.

Lemma blank_whiteOrClear w h : Forall BlurTool.whiteOrClear (pixels (blank w h)).
Proof.
  unfold blank. cbn [pixels]. apply Forall_forall. intros p Hp.
  apply repeat_spec in Hp. now left.
Qed.

(** ** The claims about the client *)

(** *** C1: Apply with an empty selection *)

(** A mask canvas nothing has been drawn on has no byte above 0. *)
Lemma hasContent_clear (m : Bitmap) :
  Forall (fun p => p = transparent) (pixels m) ->
  existsb (fun pixel => pixel >? 0) (getImageData m) = false.
Proof.
  unfold getImageData. induction (pixels m) as [|p ps IH]; intros H; [reflexivity|].
  inversion H as [|? ? Hp Hps]; subst. cbn. now apply IH.
Qed.

(** A mask with a selected pixel has a byte above 0. *)
Lemma hasContent_selected (m : Bitmap) (j : nat) :
  selected m j = true ->
  existsb (fun pixel => pixel >? 0) (getImageData m) = true.
Proof.
  unfold selected, getImageData. revert j.
  induction (pixels m) as [|p ps IH]; intros j H.
  - destruct j; cbn in H; discriminate.
  - cbn [flat_map app existsb]. destruct j as [|j]; cbn [nth] in H.
    + now rewrite H.
    + rewrite (IH j H). now rewrite !orb_true_r.
Qed.



(** *** C2: the request body *)

(** C2 as stated fails: Apply in a one-pixel editing session sends a request
    whose body has three fields, none of them called [mode]. *)
Lemma C2_body_has_no_mode_field :
  exists rq,
    sent (applyProcessing (editing imgA imgA imgA blackMask)) = [rq] /\
    length (rbody rq) = 3%nat /\
    field "mode" (rbody rq) = None.
Proof. eexists. repeat split. Qed.

(** C2 (amended).  Every transform request of [App] and of [BlurTool] has the
    three body fields [image] (the stored working image), [mask] (the mask
    canvas as a data URL) and the number [kernel_size]; the mode is not in the
    body, it selects the endpoint: [/blur] for blur, [/inpaint] for inpaint. *)
Theorem C2_request_body :
  (forall s : App.State,
      sent (applyProcessing s) = sent s \/
      exists m, maskCanvasRef s = Some m /\
        sent (applyProcessing s)
        = mkRequest
            ("http://localhost:5000/api" ++
             match mode s with Blur => "/blur" | Inpaint => "/inpaint" end)
            "POST" [("Content-Type", "application/json")] (Some "cors")
            [("image", jsonOfSrc (originalImage s));
             ("mask", JString (toDataURL m));
             ("kernel_size", JNumber 35)]
          :: sent s)
  /\
  (forall s : BlurTool.State,
      BlurTool.sent (BlurTool.applyProcessing s) = BlurTool.sent s \/
      exists m, BlurTool.maskCanvasRef s = Some m /\
        BlurTool.sent (BlurTool.applyProcessing s)
        = mkRequest
            ("http://localhost:5000/api" ++
             match BlurTool.mode s with Blur => "/blur" | Inpaint => "/inpaint" end)
            "POST" [("Content-Type", "application/json")] None
            [("image", jsonOfSrc (BlurTool.originalImage s));
             ("mask", JString (toDataURL m));
             ("kernel_size", JNumber 35)]
          :: BlurTool.sent s).
Proof.
  split; intros s.
  - destruct (applyProcessing_sent s) as [H|[m [Hm H]]]; [now left|right].
    exists m. split; [assumption|]. rewrite H. unfold transformRequest, API_URL, endpoint.
    now destruct (mode s).
  - unfold BlurTool.applyProcessing.
    destruct (BlurTool.canvasRef s); [|now left].
    destruct (BlurTool.maskCanvasRef s) as [m|]; [|now left].
    right. exists m. split; [reflexivity|].
    cbn [BlurTool.sent BlurTool.addTask BlurTool.send BlurTool.setIsProcessing
         BlurTool.mode BlurTool.originalImage].
    unfold BlurTool.transformRequest, BlurTool.API_URL, endpoint.
    now destruct (BlurTool.mode s).
Qed.

(** *** C3: the answer to a request *)

Lemma fillRectAll_shape p m :
  width (fillRectAll p m) = width m /\ height (fillRectAll p m) = height m /\
  length (pixels (fillRectAll p m)) = length (pixels m).
Proof. unfold fillRectAll. cbn [width height pixels]. rewrite length_map. repeat split. Qed.



(** *** C5: the first upload *)

(** C5 (the code departs from it).  Claimed: a decodable upload within the size
    limit is recorded as working and original image.  From the first render the
    canvases are not mounted, so the [load] callback of [handleImageUpload]
    returns at its ref guard: a valid one-pixel PNG is read and decoded, and
    nothing is recorded and no error is shown. *)
Theorem C5_first_upload_is_dropped :
  let s := run hardDisc init [ChangeFile (Some (pngFile imgA)); Fire 1; Fire 1] in
  image s = None /\ originalImage s = None /\ error s = None /\
  canvasRef s = None /\ maskCanvasRef s = None /\ pending s = [Health].
Proof. vm_compute. repeat split. Qed.

(** *** C6: the live preview *)

Section Previews.

Variable cov : float -> float -> Z -> positive -> positive -> nat -> Z.

(** A stroke keeps what it needs, and leaves the disc in the mask and the
    expected preview on the canvas. *)
Lemma stroke_ready e u img r s :
  decode u = Some img -> wf_bitmap img -> all_opaque img -> 0 <= r ->
  strokeReady u img r s ->
  strokeReady u img r (stroke cov e s) /\
  exists m m1,
    maskCanvasRef s = Some m /\
    m1 = fillDisc cov (getMousePos e s) r m /\
    maskCanvasRef (stroke cov e s) = Some m1 /\
    canvasRef (stroke cov e s) = Some (expectedPreview img m1).
Proof.
  intros Hd Wi Op Hr (Ho & Hb & c & m & Hc & Hm & Wc & Wm & Ew & Eh & Ew' & Eh' & Rm).
  assert (Hb0 : 0 <= brushSize s) by lia.
  pose proof (stroke_step cov e u img c m s Ho Hd Hc Hm Hb0 Wi Wc Wm Ew Eh Ew' Eh' Op) as S1.
  cbv zeta in S1. rewrite Hb in S1. rewrite S1.
  set (m1 := fillDisc cov (getMousePos e s) r m).
  destruct (fillDisc_shape cov (getMousePos e s) r m) as (E1 & F1 & _). fold m1 in E1, F1.
  split.
  - split; [exact Ho|]. split; [exact Hb|].
    exists (expectedPreview img m1), m1. repeat split; try congruence.
    + now apply expectedPreview_wf.
    + now apply fillDisc_wf.
    + now apply fillDisc_ready.
  - exists m, m1. repeat split. exact Hm.
Qed.

Lemma strokes_ready es u img r s :
  decode u = Some img -> wf_bitmap img -> all_opaque img -> 0 <= r ->
  strokeReady u img r s -> strokeReady u img r (strokes cov es s).
Proof.
  intros Hd Wi Op Hr. revert s. induction es as [|e es IH]; intros s H; [exact H|].
  cbn [strokes fold_left]. apply IH. now apply stroke_ready.
Qed.

Lemma strokes_snoc es e s : strokes cov (es ++ [e]) s = stroke cov e (strokes cov es s).
Proof. unfold strokes. now rewrite fold_left_app. Qed.

Lemma getMousePos_size e s s' c c' :
  canvasRef s = Some c -> canvasRef s' = Some c' ->
  width c' = width c -> height c' = height c ->
  getMousePos e s' = getMousePos e s.
Proof. intros Hc Hc' Ew Eh. unfold getMousePos. now rewrite Hc, Hc', Ew, Eh. Qed.

(** Repeating a stroke selects nothing new. *)
Lemma strokes_repeat e u img r s n :
  decode u = Some img -> wf_bitmap img -> all_opaque img -> 0 <= r ->
  strokeReady u img r s ->
  exists m1 mn,
    maskCanvasRef (stroke cov e s) = Some m1 /\
    maskCanvasRef (strokes cov (repeat e n) (stroke cov e s)) = Some mn /\
    forall j, (j < length (pixels img))%nat -> selected mn j = selected m1 j.
Proof.
  intros Hd Wi Op Hr H0.
  destruct (stroke_ready e u img r s Hd Wi Op Hr H0) as (H1 & m & m1 & Hm & Em1 & Hm1 & Hc1).
  exists m1.
  assert (G : forall k, strokeReady u img r (strokes cov (repeat e k) (stroke cov e s)) /\
            exists mk, maskCanvasRef (strokes cov (repeat e k) (stroke cov e s)) = Some mk /\
              forall j, (j < length (pixels img))%nat -> selected mk j = selected m1 j).
  { induction k as [|k [Rk (mk & Hmk & Sk)]].
    - split; [exact H1|]. exists m1. split; [exact Hm1|]. reflexivity.
    - replace (repeat e (S k)) with (repeat e k ++ [e])%list
        by (symmetry; apply repeat_cons).
      rewrite strokes_snoc.
      set (sk := strokes cov (repeat e k) (stroke cov e s)) in *.
      destruct (stroke_ready e u img r sk Hd Wi Op Hr Rk)
        as (Rk' & mk' & mk1 & Hmk' & Emk1 & Hmk1 & _).
      split; [exact Rk'|]. exists mk1. split; [exact Hmk1|].
      rewrite Hmk in Hmk'. inversion Hmk'; subst mk'. clear Hmk'.
      intros j Hj.
      destruct H0 as (_ & _ & c0 & m0 & Hc0 & Hm0 & _ & Wm0 & Ew0 & Eh0 & Ew0' & Eh0' & Rm0).
      rewrite Hm in Hm0. inversion Hm0; subst m0. clear Hm0.
      destruct Rk as (_ & _ & ck & mk' & Hck & Hmk' & _ & Wmk & Ewk & Ehk & Ewk' & Ehk' & Rmk).
      rewrite Hmk in Hmk'. inversion Hmk'; subst mk'. clear Hmk'.
      assert (Hpos : getMousePos e sk = getMousePos e s)
        by (apply (getMousePos_size e s sk c0 ck); congruence).
      assert (Lm : length (pixels m) = length (pixels img))
        by (unfold wf_bitmap in *; congruence).
      assert (Lk : length (pixels mk) = length (pixels img))
        by (unfold wf_bitmap in *; congruence).
      rewrite Emk1, Hpos, fillDisc_selection by (assumption || lia).
      rewrite (Sk j Hj).
      rewrite Em1, fillDisc_selection by (assumption || lia).
      rewrite Ewk', Ehk', Ew0', Eh0'.
      destruct (getMousePos e s) as [x y].
      now destruct (PrimFloat.is_finite x && PrimFloat.is_finite y
                    && (clamp255 (cov x y r (width img) (height img) j) >? 0)),
                   (selected m j). }
  destruct (G n) as (_ & mn & Hmn & Sn). exists mn. repeat split; assumption.
Qed.

End Previews.



(** *** C7: Reset *)

Lemma nth_error_end {A} (l : list A) (a : A) : nth_error (l ++ [a]) (length l) = Some a.
Proof. rewrite nth_error_app2 by lia. now rewrite Nat.sub_diag. Qed.

Lemma remove_nth_end {A} (l : list A) (a : A) : remove_nth (length l) (l ++ [a]) = l.
Proof. induction l as [|x l IH]; cbn; [reflexivity|]. now rewrite IH. Qed.

Lemma nth_error_end2 {A} (l : list A) (a b : A) :
  nth_error (l ++ [a; b]) (length l + 1) = Some b.
Proof.
  rewrite nth_error_app2 by lia. replace (length l + 1 - length l)%nat with 1%nat by lia.
  reflexivity.
Qed.

Lemma remove_nth_end2 {A} (l : list A) (a b : A) :
  remove_nth (length l + 1) (l ++ [a; b]) = (l ++ [a])%list.
Proof.
  induction l as [|x l IH]; cbn; [reflexivity|]. now rewrite IH.
Qed.

Lemma putCanvas_same c s : canvasRef s = Some c -> putCanvas c s = s.
Proof. destruct s. cbn. now intros ->. Qed.



(** *** C8, C9 and C10: one request at a time, the brush, the kernel size *)

(** C8.  From any state with at most one transform request outstanding, every
    sequence of user actions and callbacks leads to such a state, and while a
    request is outstanding a click on Apply does nothing. *)
Theorem C8_single_flight cov s evs :
  singleFlight s ->
  let s' := run cov s evs in
  singleFlight s' /\ (inFlight s' <> [] -> dispatch cov ClickApply s' = s').
Proof.
  intros H. cbv zeta.
  assert (Hr : singleFlight (run cov s evs)).
  { revert s H; induction evs as [|ev evs IH]; intros s H; cbn; [assumption|].
    apply IH. now apply singleFlight_handle. }
  split; [assumption|]. now apply apply_disabled.
Qed.

(** C9.  The brush radius starts at 20 and, once within [5, 100], stays there
    under every sequence of events, the minus and plus buttons included. *)
Theorem C9_brush_radius_range :
  5 <= brushSize init <= 100 /\
  forall cov s evs, 5 <= brushSize s <= 100 -> 5 <= brushSize (run cov s evs) <= 100.
Proof.
  split; [cbn; lia|].
  intros cov s evs; revert s; induction evs as [|ev evs IH]; intros s H; cbn; [assumption|].
  apply IH. unfold handle. rewrite render_brushSize. now apply dispatch_brushSize.
Qed.

(** C10.  Whatever the state (mode, mask, brush size), an event either sends
    nothing or sends one request whose [kernel_size] is the number 35; the same
    holds for [BlurTool]'s [applyProcessing]. *)
Theorem C10_kernel_size_is_35 :
  (forall cov s ev,
      sent (handle cov s ev) = sent s \/
      exists rq, sent (handle cov s ev) = rq :: sent s /\
                 field "kernel_size" (rbody rq) = Some (JNumber 35))
  /\
  (forall s : BlurTool.State,
      BlurTool.sent (BlurTool.applyProcessing s) = BlurTool.sent s \/
      exists rq, BlurTool.sent (BlurTool.applyProcessing s) = rq :: BlurTool.sent s /\
                 field "kernel_size" (rbody rq) = Some (JNumber 35)).
Proof.
  split.
  - intros cov s ev. unfold handle. rewrite render_sent.
    destruct (dispatch_sent cov ev s) as [H|[m [_ H]]]; [now left|right].
    eexists; split; [exact H|reflexivity].
  - intros s. unfold BlurTool.applyProcessing.
    destruct (BlurTool.canvasRef s); [|now left].
    destruct (BlurTool.maskCanvasRef s) as [m|]; [|now left].
    right. eexists; split; reflexivity.
Qed.

(** ** The engine's blur mode: feathering *)

Import Engine.

Section KernelFacts.

Variable weight : nat -> Z -> Z.
Variable r : nat.
Hypothesis weight_pos : forall i, - Z.of_nat r <= i <= Z.of_nat r -> 0 < weight r i.
Hypothesis weight_sym : forall i, weight r (- i) = weight r i.
Hypothesis weight_dec : forall i, 0 <= i < Z.of_nat r -> weight r (i + 1) <= weight r i.

Lemma wsum_ext (n : nat) (g g' : Z -> Z) :
  (forall i, - Z.of_nat n <= i <= Z.of_nat n -> g i = g' i) ->
  wsum weight r n g = wsum weight r n g'.
Proof.
  induction n as [|n IH]; intros H.
  - cbn. rewrite (H 0) by lia. reflexivity.
  - cbn [wsum]. rewrite IH by (intros; apply H; lia).
    rewrite (H (Z.of_nat (S n))), (H (- Z.of_nat (S n))) by lia. reflexivity.
Qed.

Lemma wsum_le (n : nat) (g g' : Z -> Z) :
  (n <= r)%nat ->
  (forall i, - Z.of_nat n <= i <= Z.of_nat n -> g i <= g' i) ->
  wsum weight r n g <= wsum weight r n g'.
Proof.
  intros Hn. induction n as [|n IH]; intros H.
  - cbn. pose proof (weight_pos 0 ltac:(lia)). pose proof (H 0 ltac:(lia)). nia.
  - cbn [wsum].
    pose proof (IH ltac:(lia) ltac:(intros; apply H; lia)).
    pose proof (weight_pos (Z.of_nat (S n)) ltac:(lia)).
    pose proof (weight_pos (- Z.of_nat (S n)) ltac:(lia)).
    pose proof (H (Z.of_nat (S n)) ltac:(lia)).
    pose proof (H (- Z.of_nat (S n)) ltac:(lia)).
    nia.
Qed.

Lemma wsum_lt (n : nat) (g g' : Z -> Z) (i0 : Z) :
  (n <= r)%nat ->
  (forall i, - Z.of_nat n <= i <= Z.of_nat n -> g i <= g' i) ->
  - Z.of_nat n <= i0 <= Z.of_nat n -> g i0 < g' i0 ->
  wsum weight r n g < wsum weight r n g'.
Proof.
  intros Hn. induction n as [|n IH]; intros H Hi Hlt.
  - cbn. assert (i0 = 0) by lia. subst. pose proof (weight_pos 0 ltac:(lia)). nia.
  - cbn [wsum].
    pose proof (weight_pos (Z.of_nat (S n)) ltac:(lia)).
    pose proof (weight_pos (- Z.of_nat (S n)) ltac:(lia)).
    pose proof (H (Z.of_nat (S n)) ltac:(lia)).
    pose proof (H (- Z.of_nat (S n)) ltac:(lia)).
    destruct (Z.eq_dec i0 (Z.of_nat (S n))) as [->|N1].
    + pose proof (wsum_le n g g' ltac:(lia) ltac:(intros; apply H; lia)). nia.
    + destruct (Z.eq_dec i0 (- Z.of_nat (S n))) as [->|N2].
      * pose proof (wsum_le n g g' ltac:(lia) ltac:(intros; apply H; lia)). nia.
      * pose proof (IH ltac:(lia) ltac:(intros; apply H; lia) ltac:(lia) Hlt). nia.
Qed.

Lemma wsum_scale (n : nat) (c : Z) (g : Z -> Z) :
  wsum weight r n (fun i => c * g i) = c * wsum weight r n g.
Proof. induction n as [|n IH]; cbn [wsum]; [ring|rewrite IH; ring]. Qed.

Lemma wsum_zero (n : nat) : wsum weight r n (fun _ => 0) = 0.
Proof. induction n as [|n IH]; cbn [wsum]; [ring|rewrite IH; ring]. Qed.

Lemma wsum_pos (n : nat) (g : Z -> Z) (i0 : Z) :
  (n <= r)%nat ->
  (forall i, - Z.of_nat n <= i <= Z.of_nat n -> 0 <= g i) ->
  - Z.of_nat n <= i0 <= Z.of_nat n -> 0 < g i0 ->
  0 < wsum weight r n g.
Proof.
  intros Hn Hg Hi H0.
  pose proof (wsum_lt n (fun _ => 0) g i0 Hn Hg Hi H0) as H.
  now rewrite wsum_zero in H.
Qed.

Lemma wsum_nonneg (n : nat) (g : Z -> Z) :
  (n <= r)%nat ->
  (forall i, - Z.of_nat n <= i <= Z.of_nat n -> 0 <= g i) ->
  0 <= wsum weight r n g.
Proof.
  intros Hn Hg. pose proof (wsum_le n (fun _ => 0) g Hn Hg) as H.
  now rewrite wsum_zero in H.
Qed.

Lemma wsum_bounded (n : nat) (g : Z -> Z) (M : Z) :
  (n <= r)%nat ->
  (forall i, - Z.of_nat n <= i <= Z.of_nat n -> 0 <= g i <= M) ->
  wsum weight r n g <= M * wsum weight r n (fun _ => 1).
Proof.
  intros Hn Hg. rewrite <- wsum_scale. apply wsum_le; [assumption|].
  intros i Hi. specialize (Hg i Hi). lia.
Qed.

Lemma wsum_below (n : nat) (g : Z -> Z) (M i0 : Z) :
  (n <= r)%nat ->
  (forall i, - Z.of_nat n <= i <= Z.of_nat n -> 0 <= g i <= M) ->
  - Z.of_nat n <= i0 <= Z.of_nat n -> g i0 < M ->
  wsum weight r n g < M * wsum weight r n (fun _ => 1).
Proof.
  intros Hn Hg Hi H0. rewrite <- wsum_scale. apply (wsum_lt n _ _ i0); try assumption.
  - intros i Hi'. specialize (Hg i Hi'). lia.
  - lia.
Qed.

Lemma wsum_one_pos (n : nat) : (n <= r)%nat -> 0 < wsum weight r n (fun _ => 1).
Proof.
  intros Hn. rewrite <- (wsum_zero n). apply (wsum_lt n _ _ 0); intros; lia.
Qed.

Lemma total_pos : 0 < total weight r.
Proof.
  unfold total. rewrite <- (wsum_zero r).
  apply (wsum_lt r _ _ 0); try lia; intros.
  - pose proof (wsum_one_pos r ltac:(lia)). lia.
  - apply wsum_one_pos. lia.
Qed.

(** Sliding the window one pixel outward: summation by parts. *)
Lemma wsum_slide (c x : Z) (d : Z -> Z) (n : nat) :
  radial c d -> c <= x -> (n <= r)%nat ->
  weight r (Z.of_nat n) * (d (x - Z.of_nat n) - d (x + Z.of_nat n + 1))
  <= wsum weight r n (fun i => d (x + i)) - wsum weight r n (fun i => d (x + 1 + i)).
Proof.
  intros Hd Hx. induction n as [|n IH]; intros Hn.
  - cbn [wsum Z.of_nat]. replace (x - 0) with x by ring. replace (x + 0) with x by ring.
    replace (x + 1 + 0) with (x + 1) by ring. lia.
  - cbn [wsum]. specialize (IH ltac:(lia)).
    rewrite !weight_sym.
    set (N := Z.of_nat (S n)) in *.
    assert (EN : N = Z.of_nat n + 1) by (unfold N; lia).
    pose proof (weight_dec (Z.of_nat n) ltac:(lia)) as Hw.
    rewrite <- EN in Hw.
    pose proof (weight_pos N ltac:(lia)) as Hp.
    assert (E0 : d (x + Z.of_nat n + 1) <= d (x - Z.of_nat n)) by (apply Hd; lia).
    replace (x + Z.of_nat n + 1) with (x + N) in * by lia.
    replace (x + 1 + N) with (x + N + 1) by lia.
    replace (x + 1 + - N) with (x - Z.of_nat n) by lia.
    replace (x + - N) with (x - N) by lia.
    nia.
Qed.

Lemma wsum_outward (c x : Z) (d : Z -> Z) :
  radial c d -> c <= x ->
  wsum weight r r (fun i => d (x + 1 + i)) <= wsum weight r r (fun i => d (x + i)).
Proof.
  intros Hd Hx. pose proof (wsum_slide c x d r Hd Hx (le_n r)) as H.
  pose proof (weight_pos (Z.of_nat r) ltac:(lia)).
  assert (d (x + Z.of_nat r + 1) <= d (x - Z.of_nat r)) by (apply Hd; lia).
  nia.
Qed.



Lemma wsum_add (n : nat) (g h : Z -> Z) :
  wsum weight r n (fun i => g i + h i) = wsum weight r n g + wsum weight r n h.
Proof. induction n as [|n IH]; cbn [wsum]; [ring|rewrite IH; ring]. Qed.

(** The kernel is symmetric, so the window may be read right to left. *)
Lemma wsum_flip (n : nat) (g : Z -> Z) :
  wsum weight r n (fun i => g (- i)) = wsum weight r n g.
Proof.
  induction n as [|n IH]; cbn [wsum].
  - reflexivity.
  - rewrite IH, Z.opp_involutive, !weight_sym. ring.
Qed.

(** The two sums of the separable blur commute. *)
Lemma wsum_swap (n m : nat) (f : Z -> Z -> Z) :
  wsum weight r n (fun j => wsum weight r m (fun i => f i j))
  = wsum weight r m (fun i => wsum weight r n (fun j => f i j)).
Proof.
  induction n as [|n IH]; cbn [wsum].
  - now rewrite wsum_scale.
  - rewrite IH, !wsum_add, !wsum_scale. reflexivity.
Qed.

(** A row of the disc mask does not increase with the distance from the centre
    column; the disc is its own mirror image and its own transpose. *)
Lemma disc_radial (cx cy R y : Z) : radial cx (fun t => discValue cx cy R t y).
Proof.
  intros t t' H. unfold discValue, inDisc.
  destruct ((t' - cx) * (t' - cx) + (y - cy) * (y - cy) <=? R * R) eqn:E1;
    destruct ((t - cx) * (t - cx) + (y - cy) * (y - cy) <=? R * R) eqn:E2; try lia.
  apply Z.leb_le in E1. apply Z.leb_gt in E2.
  assert ((t - cx) * (t - cx) <= (t' - cx) * (t' - cx)) by nia. lia.
Qed.

Lemma disc_mirror (cx cy R x y : Z) :
  discValue cx cy R (2 * cx - x) y = discValue cx cy R x y.
Proof.
  unfold discValue, inDisc.
  now replace ((2 * cx - x - cx) * (2 * cx - x - cx)) with ((x - cx) * (x - cx)) by ring.
Qed.

Lemma disc_transpose (cx cy R x y : Z) :
  discValue cx cy R x y = discValue cy cx R y x.
Proof. unfold discValue, inDisc. now rewrite Z.add_comm. Qed.

Lemma discValue_range (cx cy R x y : Z) : 0 <= discValue cx cy R x y <= 255.
Proof. unfold discValue. destruct (inDisc cx cy R x y); lia. Qed.

Lemma in_range (n x : Z) : In x (range n) -> 0 <= x < n.
Proof.
  unfold range. intros H. apply in_map_iff in H as [k [<- Hk]].
  apply in_seq in Hk. lia.
Qed.

Lemma disc_isBinary (mask : Image) (cx cy R : Z) :
  (forall x y, 0 <= x < iw mask -> 0 <= y < ih mask ->
               px mask x y = discValue cx cy R x y) ->
  isBinary mask = true.
Proof.
  intros Hd. unfold isBinary. apply forallb_forall. intros y Hy.
  apply forallb_forall. intros x Hx.
  apply in_range in Hx, Hy. rewrite Hd by assumption.
  unfold discValue. destruct (inDisc cx cy R x y); reflexivity.
Qed.

(** One pixel further from the centre column the blurred disc is no larger,
    to the right and, by symmetry, to the left. *)
Lemma conv_right (cx cy R x y : Z) :
  cx <= x ->
  conv weight r (discValue cx cy R) (x + 1) y <= conv weight r (discValue cx cy R) x y.
Proof.
  intros H1. unfold conv. apply wsum_le; [lia|]. intros j Hj.
  apply (wsum_outward cx x (fun t => discValue cx cy R t (y + j))); [|assumption].
  apply disc_radial.
Qed.

Lemma conv_mirror (cx cy R x y : Z) :
  conv weight r (discValue cx cy R) (2 * cx - x) y = conv weight r (discValue cx cy R) x y.
Proof.
  unfold conv. apply wsum_ext. intros j _.
  rewrite <- (wsum_flip r (fun i => discValue cx cy R (x + i) (y + j))).
  apply wsum_ext. intros i _.
  rewrite <- (disc_mirror cx cy R (x + - i)). f_equal. ring.
Qed.

Lemma conv_left (cx cy R x y : Z) :
  x <= cx ->
  conv weight r (discValue cx cy R) (x - 1) y <= conv weight r (discValue cx cy R) x y.
Proof.
  intros H. rewrite <- (conv_mirror cx cy R (x - 1)), <- (conv_mirror cx cy R x).
  replace (2 * cx - (x - 1)) with (2 * cx - x + 1) by ring.
  apply conv_right. lia.
Qed.

(** The same along columns: the blur of the transposed disc. *)
Lemma conv_transpose (cx cy R x y : Z) :
  conv weight r (discValue cx cy R) x y = conv weight r (discValue cy cx R) y x.
Proof.
  unfold conv. rewrite wsum_swap. apply wsum_ext. intros i _.
  apply wsum_ext. intros j _. apply disc_transpose.
Qed.

Lemma conv_down (cx cy R x y : Z) :
  cy <= y ->
  conv weight r (discValue cx cy R) x (y + 1) <= conv weight r (discValue cx cy R) x y.
Proof. intros H. rewrite !(conv_transpose cx cy). now apply conv_right. Qed.

Lemma conv_up (cx cy R x y : Z) :
  y <= cy ->
  conv weight r (discValue cx cy R) x (y - 1) <= conv weight r (discValue cx cy R) x y.
Proof. intros H. rewrite !(conv_transpose cx cy). now apply conv_left. Qed.

(** A window that contains a selected pixel gives a positive sum. *)
Lemma conv_pos (cx cy R x y i0 j0 : Z) :
  - Z.of_nat r <= i0 <= Z.of_nat r -> - Z.of_nat r <= j0 <= Z.of_nat r ->
  inDisc cx cy R (x + i0) (y + j0) = true ->
  0 < conv weight r (discValue cx cy R) x y.
Proof.
  intros Hi Hj Hv. unfold conv. apply (wsum_pos r _ j0); try lia.
  - intros j _. apply wsum_nonneg; [lia|]. intros i _. apply discValue_range.
  - apply (wsum_pos r _ i0); try lia.
    + intros i _. apply discValue_range.
    + unfold discValue. rewrite Hv. lia.
Qed.

(** A window that contains an unselected pixel stays below full coverage. *)
Lemma conv_below_full (cx cy R x y i0 j0 : Z) :
  - Z.of_nat r <= i0 <= Z.of_nat r -> - Z.of_nat r <= j0 <= Z.of_nat r ->
  inDisc cx cy R (x + i0) (y + j0) = false ->
  conv weight r (discValue cx cy R) x y < 255 * total weight r.
Proof.
  intros Hi Hj Hv. unfold conv, total.
  rewrite <- wsum_scale.
  apply (wsum_lt r _ _ j0); try lia.
  - intros j _. cbv beta. apply wsum_bounded; [lia|].
    intros i _. apply discValue_range.
  - cbv beta. apply (wsum_below r _ 255 i0); try lia.
    + intros i _. apply discValue_range.
    + unfold discValue. rewrite Hv. lia.
Qed.

End KernelFacts.

Lemma conv_ext weight r (f g : Z -> Z -> Z) x y :
  (forall p q, f p q = g p q) -> conv weight r f x y = conv weight r g x y.
Proof.
  intros H. unfold conv. apply wsum_ext. intros j _. apply wsum_ext. intros i _. apply H.
Qed.

(** Where [f] has the value [v] on the whole window, the sum is [v] times the
    sum of the weights. *)
Lemma conv_const weight r (f : Z -> Z -> Z) (v x y : Z) :
  (forall i j, - Z.of_nat r <= i <= Z.of_nat r -> - Z.of_nat r <= j <= Z.of_nat r ->
               f (x + i) (y + j) = v) ->
  conv weight r f x y = v * total weight r.
Proof.
  intros H. unfold conv, total.
  rewrite <- wsum_scale. apply wsum_ext. intros j Hj.
  rewrite <- wsum_scale. apply wsum_ext. intros i Hi.
  rewrite (H i j Hi Hj). ring.
Qed.

Lemma conv_range weight r
      (Wpos : forall i, - Z.of_nat r <= i <= Z.of_nat r -> 0 < weight r i) cx cy R x y :
  0 <= conv weight r (discValue cx cy R) x y <= 255 * total weight r.
Proof.
  unfold conv, total. split.
  - apply (wsum_nonneg weight r Wpos); [lia|]. intros j _.
    apply (wsum_nonneg weight r Wpos); [lia|]. intros i _. apply discValue_range.
  - rewrite <- wsum_scale. apply (wsum_le weight r Wpos); [lia|]. intros j _.
    apply (wsum_bounded weight r Wpos); [lia|]. intros i _. apply discValue_range.
Qed.


Lemma Qdiv_Z_le (a b d : Z) :
  0 < d -> a <= b -> (inject_Z a / inject_Z d <= inject_Z b / inject_Z d)%Q.
Proof.
  intros Hd H. destruct d as [|p|p]; try lia.
  unfold Qle, Qdiv, Qmult, Qinv, inject_Z. cbn. nia.
Qed.

Lemma Qdiv_Z_pos (a d : Z) : 0 < d -> 0 < a -> (0 < inject_Z a / inject_Z d)%Q.
Proof.
  intros Hd H. destruct d as [|p|p]; try lia.
  unfold Qlt, Qdiv, Qmult, Qinv, inject_Z. cbn. nia.
Qed.

Lemma Qdiv_Z_lt_1 (a d : Z) : 0 < d -> a < d -> (inject_Z a / inject_Z d < 1)%Q.
Proof.
  intros Hd H. destruct d as [|p|p]; try lia.
  unfold Qlt, Qdiv, Qmult, Qinv, inject_Z. cbn. nia.
Qed.



Lemma Qdiv_Z_same (d : Z) : 0 < d -> (inject_Z d / inject_Z d == 1)%Q.
Proof.
  intros H. apply Qmult_inv_r. intros E. unfold Qeq, inject_Z in E. cbn in E. lia.
Qed.

Lemma Qdiv_Z_0 (d : Z) : (inject_Z 0 / inject_Z d == 0)%Q.
Proof. unfold Qdiv. cbn. ring. Qed.

Lemma Qdiv_Z_nonneg (a d : Z) : 0 < d -> 0 <= a -> (0 <= inject_Z a / inject_Z d)%Q.
Proof.
  intros Hd H. destruct d as [|p|p]; try lia.
  unfold Qle, Qdiv, Qmult, Qinv, inject_Z. cbn. nia.
Qed.

Lemma Qdiv_Z_le_1 (a d : Z) : 0 < d -> a <= d -> (inject_Z a / inject_Z d <= 1)%Q.
Proof.
  intros Hd H. destruct d as [|p|p]; try lia.
  unfold Qle, Qdiv, Qmult, Qinv, inject_Z. cbn. nia.
Qed.

(** Where alpha is strictly between 0 and 1 the blend is strictly between the
    original and the blurred value, when these differ. *)
Lemma lerp_between (a b t : Q) :
  (0 < t -> t < 1 ->
   (a < b -> a < lerp a b t /\ lerp a b t < b) /\
   (b < a -> b < lerp a b t /\ lerp a b t < a))%Q.
Proof. intros H0 H1. unfold lerp. split; intros H; split; nra. Qed.

(** Where alpha does not grow and the original and the blurred image are
    level, the blend moves with alpha. *)
Lemma lerp_level (a b b' t t' : Q) :
  (b' == b -> t' <= t ->
   (a <= b -> lerp a b' t' <= lerp a b t) /\
   (b <= a -> lerp a b t <= lerp a b' t'))%Q.
Proof. intros Eb Ht. unfold lerp. split; intros H; rewrite Eb; nra. Qed.

Lemma featherRadius_pos (kernelSize : Z) :
  3 <= kernelSize -> (1 <= featherRadius (coerceKernel kernelSize))%nat.
Proof.
  intros H. unfold featherRadius, coerceKernel.
  assert (1 <= (if Z.even kernelSize then kernelSize + 1 else kernelSize) / 3).
  { apply Z.div_le_lower_bound; [lia|]. destruct (Z.even kernelSize); lia. }
  lia.
Qed.

(** C4 (amended).  In blur mode with a kernel size of at least 3 and a mask that
    is one hard-edged disc, the call succeeds, the feather reaches at least one
    pixel to each side, and every output pixel is
    [lerp(original, blurred, alpha)] with the feathered mask as alpha.  Alpha
    is 1 where the feather's window lies in the disc and 0 where the window
    misses the disc, and in between it does not increase from a pixel to its
    neighbour further from the disc's centre, along every row and every
    column; on any two neighbouring pixels of which one is in the disc and the
    other is not, it is strictly between 0 and 1 on both, so the transition
    spans more than one pixel.  The output intensity follows alpha: between two
    pixels at which the original and the blurred image are level it moves the
    way alpha does, towards the blurred value where alpha is larger, and where
    alpha is strictly between 0 and 1 it is strictly between the original and
    the blurred value. *)
Theorem C4_feathered_transition weight img mask kernelSize cx cy R :
  let k := coerceKernel kernelSize in
  let r := featherRadius k in
  let a := alphaAt weight mask k in
  let o x y := inject_Z (px img x y) in
  let b := blurred weight img k in
  let window (P : Z -> Z -> Prop) x y :=
    forall i j, - Z.of_nat r <= i <= Z.of_nat r -> - Z.of_nat r <= j <= Z.of_nat r ->
                P (x + i) (y + j) in
  3 <= kernelSize ->
  goodKernel weight r ->
  iw img = iw mask -> ih img = ih mask ->
  (forall x y, px mask x y = discValue cx cy R x y) ->
  exists out,
    blurMode weight img mask kernelSize = inl out /\
    (1 <= r)%nat /\
    (forall x y, opx out x y = lerp (o x y) (b x y) (a x y)) /\
    (forall x y, window (fun p q => inDisc cx cy R p q = true) x y -> (a x y == 1)%Q) /\
    (forall x y, window (fun p q => inDisc cx cy R p q = false) x y -> (a x y == 0)%Q) /\
    (forall x y, (0 <= a x y)%Q /\ (a x y <= 1)%Q) /\
    (forall x y, cx <= x -> (a (x + 1)%Z y <= a x y)%Q) /\
    (forall x y, x <= cx -> (a (x - 1)%Z y <= a x y)%Q) /\
    (forall x y, cy <= y -> (a x (y + 1)%Z <= a x y)%Q) /\
    (forall x y, y <= cy -> (a x (y - 1)%Z <= a x y)%Q) /\
    (forall x y x' y',
        Z.abs (x' - x) <= 1 -> Z.abs (y' - y) <= 1 ->
        inDisc cx cy R x y = true -> inDisc cx cy R x' y' = false ->
        (0 < a x y)%Q /\ (a x y < 1)%Q /\ (0 < a x' y')%Q /\ (a x' y' < 1)%Q) /\
    (forall x y x' y',
        px img x' y' = px img x y -> (b x' y' == b x y)%Q -> (a x' y' <= a x y)%Q ->
        ((o x y <= b x y)%Q -> (opx out x' y' <= opx out x y)%Q) /\
        ((b x y <= o x y)%Q -> (opx out x y <= opx out x' y')%Q)) /\
    (forall x y,
        (0 < a x y)%Q -> (a x y < 1)%Q ->
        ((o x y < b x y)%Q -> (o x y < opx out x y)%Q /\ (opx out x y < b x y)%Q) /\
        ((b x y < o x y)%Q -> (b x y < opx out x y)%Q /\ (opx out x y < o x y)%Q)).
Proof.
  intros k r a o b window Hk (Wpos & Wsym & Wdec) Ew Eh Hdisc.
  pose proof (featherRadius_pos kernelSize Hk) as Hr. fold k in Hr. fold r in Hr.
  assert (Hk3 : 3 <= k) by (unfold k, coerceKernel; destruct (Z.even kernelSize); lia).
  pose proof (total_pos weight r Wpos) as Ht.
  assert (Hb : isBinary mask = true) by (apply (disc_isBinary mask cx cy R); auto).
  unfold blurMode. fold k. rewrite Ew, Eh, !Z.eqb_refl. cbn [andb negb].
  destruct (k <? 3) eqn:E; [apply Z.ltb_lt in E; lia|].
  eexists; split; [reflexivity|]. cbn [opx]. fold a. fold b.
  split; [exact Hr|]. split; [reflexivity|].
  assert (Ha : forall x y,
             a x y = (inject_Z (conv weight r (discValue cx cy R) x y)
                      / inject_Z (255 * total weight r))%Q).
  { intros x y. unfold a, alphaAt. rewrite Hb. fold r.
    now rewrite (conv_ext weight r (px mask) (discValue cx cy R) x y Hdisc). }
  assert (Hz0 : - Z.of_nat r <= 0 <= Z.of_nat r) by lia.
  assert (Hsum : forall x y, 0 <= conv weight r (discValue cx cy R) x y <= 255 * total weight r)
    by (intros; apply (conv_range weight r Wpos)).
  split; [|split; [|split; [|split; [|split; [|split; [|split; [|split; [|split]]]]]]]].
  - intros x y H. rewrite Ha, (conv_const weight r (discValue cx cy R) 255 x y).
    + apply Qdiv_Z_same. lia.
    + intros i j Hi Hj. unfold discValue. now rewrite (H i j Hi Hj).
  - intros x y H. rewrite Ha, (conv_const weight r (discValue cx cy R) 0 x y).
    + cbn [Z.mul]. apply Qdiv_Z_0.
    + intros i j Hi Hj. unfold discValue. now rewrite (H i j Hi Hj).
  - intros x y. rewrite Ha. split.
    + apply Qdiv_Z_nonneg; [lia|]. apply Hsum.
    + apply Qdiv_Z_le_1; [lia|]. apply Hsum.
  - intros x y Hx. rewrite !Ha. apply Qdiv_Z_le; [lia|]. now apply conv_right.
  - intros x y Hx. rewrite !Ha. apply Qdiv_Z_le; [lia|]. now apply conv_left.
  - intros x y Hx. rewrite !Ha. apply Qdiv_Z_le; [lia|]. now apply conv_down.
  - intros x y Hx. rewrite !Ha. apply Qdiv_Z_le; [lia|]. now apply conv_up.
  - intros x y x' y' Hx Hy Hin Hout. rewrite !Ha. repeat split.
    + apply Qdiv_Z_pos; [lia|].
      apply (conv_pos weight r Wpos cx cy R x y 0 0 Hz0 Hz0).
      now replace (x + 0) with x by ring; replace (y + 0) with y by ring.
    + apply Qdiv_Z_lt_1; [lia|].
      apply (conv_below_full weight r Wpos cx cy R x y (x' - x) (y' - y)); try lia.
      now replace (x + (x' - x)) with x' by ring; replace (y + (y' - y)) with y' by ring.
    + apply Qdiv_Z_pos; [lia|].
      apply (conv_pos weight r Wpos cx cy R x' y' (x - x') (y - y')); try lia.
      now replace (x' + (x - x')) with x by ring; replace (y' + (y - y')) with y by ring.
    + apply Qdiv_Z_lt_1; [lia|].
      apply (conv_below_full weight r Wpos cx cy R x' y' 0 0 Hz0 Hz0).
      now replace (x' + 0) with x' by ring; replace (y' + 0) with y' by ring.
  - intros x y x' y' Ep Eb Ht'. unfold o. rewrite Ep. now apply lerp_level.
  - intros x y H0 H1. now apply lerp_between.
Qed.

Lemma boxWeight_good (r : nat) : goodKernel boxWeight r.
Proof. unfold goodKernel, boxWeight. repeat split; intros; lia. Qed.

Lemma triangleWeight_good (r : nat) : goodKernel triangleWeight r.
Proof. unfold goodKernel, triangleWeight. repeat split; intros; lia. Qed.

(** C4 as stated fails: the output intensity is not monotonic across the disc
    boundary for every image.  On one-pixel stripes, with kernel size 3 (the
    kernel [1, 2, 1]) and the disc of radius 2 at (4, 3), the output along row
    3 rises from column 6, the last of the disc, to column 7 and falls from
    column 7 to column 8. *)
Lemma C4_output_not_monotonic :
  exists out,
    blurMode triangleWeight (stripes 12 7) (discMask 12 7 4 3 2) 3 = inl out /\
    ~ ((forall x, 6 <= x < 8 -> (opx out (x + 1) 3 <= opx out x 3)%Q) \/
       (forall x, 6 <= x < 8 -> (opx out x 3 <= opx out (x + 1) 3)%Q)).
Proof.
  eexists. split; [reflexivity|]. cbn [opx]. intros [M|M].
  - specialize (M 6 ltac:(lia)). vm_compute in M. apply M. reflexivity.
  - specialize (M 7 ltac:(lia)). vm_compute in M. apply M. reflexivity.
Qed.

(** The output of that call along row 3, columns 6 to 8. *)
Lemma stripes_output_values :
  exists out,
    blurMode triangleWeight (stripes 12 7) (discMask 12 7 4 3 2) 3 = inl out /\
    (opx out 6 3 == 255 # 4)%Q /\ (opx out 7 3 == 3825 # 16)%Q /\ (opx out 8 3 == 0)%Q.
Proof. eexists. split; [reflexivity|]. repeat split; vm_compute; reflexivity. Qed.

Lemma C4_feathered_transition_witness :
  let img := bands 12 7 in
  let mask := discMask 12 7 4 3 2 in
  let a := alphaAt triangleWeight mask 3 in
  let o x y := inject_Z (px img x y) in
  let b := blurred triangleWeight img 3 in
  let window (P : Z -> Z -> Prop) x y :=
    forall i j, - 1 <= i <= 1 -> - 1 <= j <= 1 -> P (x + i) (y + j) in
  exists out,
    blurMode triangleWeight img mask 3 = inl out /\
    (1 <= 1)%nat /\
    (forall x y, opx out x y = lerp (o x y) (b x y) (a x y)) /\
    (forall x y, window (fun p q => inDisc 4 3 2 p q = true) x y -> (a x y == 1)%Q) /\
    (forall x y, window (fun p q => inDisc 4 3 2 p q = false) x y -> (a x y == 0)%Q) /\
    (forall x y, (0 <= a x y)%Q /\ (a x y <= 1)%Q) /\
    (forall x y, 4 <= x -> (a (x + 1)%Z y <= a x y)%Q) /\
    (forall x y, x <= 4 -> (a (x - 1)%Z y <= a x y)%Q) /\
    (forall x y, 3 <= y -> (a x (y + 1)%Z <= a x y)%Q) /\
    (forall x y, y <= 3 -> (a x (y - 1)%Z <= a x y)%Q) /\
    (forall x y x' y',
        Z.abs (x' - x) <= 1 -> Z.abs (y' - y) <= 1 ->
        inDisc 4 3 2 x y = true -> inDisc 4 3 2 x' y' = false ->
        (0 < a x y)%Q /\ (a x y < 1)%Q /\ (0 < a x' y')%Q /\ (a x' y' < 1)%Q) /\
    (forall x y x' y',
        px img x' y' = px img x y -> (b x' y' == b x y)%Q -> (a x' y' <= a x y)%Q ->
        ((o x y <= b x y)%Q -> (opx out x' y' <= opx out x y)%Q) /\
        ((b x y <= o x y)%Q -> (opx out x y <= opx out x' y')%Q)) /\
    (forall x y,
        (0 < a x y)%Q -> (a x y < 1)%Q ->
        ((o x y < b x y)%Q -> (o x y < opx out x y)%Q /\ (opx out x y < b x y)%Q) /\
        ((b x y < o x y)%Q -> (b x y < opx out x y)%Q /\ (opx out x y < o x y)%Q)).
Proof.
  apply (C4_feathered_transition triangleWeight (bands 12 7) (discMask 12 7 4 3 2) 3 4 3 2).
  - lia.
  - apply triangleWeight_good.
  - reflexivity.
  - reflexivity.
  - intros x y. reflexivity.
Defined.

(** Along row 3 of that disc the alpha is 1 at the centre, 1/2 at the edge
    pixel (6, 3), 1/8 at its outer neighbour and 0 from column 8 on. *)
Lemma feathered_edge_values :
  (alphaAt triangleWeight (discMask 12 7 4 3 2) 3 4 3 == 1)%Q /\
  (alphaAt triangleWeight (discMask 12 7 4 3 2) 3 6 3 == 1 # 2)%Q /\
  (alphaAt triangleWeight (discMask 12 7 4 3 2) 3 7 3 == 1 # 8)%Q /\
  (alphaAt triangleWeight (discMask 12 7 4 3 2) 3 8 3 == 0)%Q.
Proof. repeat split; vm_compute; reflexivity. Qed.

(** On horizontal bands the original and the blurred image are level along a
    row, and the output along row 3 rises with the falling alpha from the
    blurred value 255/2 at the disc's centre to the original 255 outside the
    feather. *)
Lemma bands_output_values :
  exists out,
    blurMode triangleWeight (bands 12 7) (discMask 12 7 4 3 2) 3 = inl out /\
    (opx out 4 3 == 255 # 2)%Q /\ (opx out 5 3 == 2295 # 16)%Q /\
    (opx out 6 3 == 765 # 4)%Q /\ (opx out 7 3 == 3825 # 16)%Q /\
    (opx out 8 3 == 255)%Q.
Proof. eexists. split; [reflexivity|]. repeat split; vm_compute; reflexivity. Qed.

(** ** The theorems at concrete inputs *)

Lemma blackMask_ready : maskReady blackMask.
Proof. repeat constructor; cbn; lia. Qed.





Lemma C8_single_flight_witness :
  singleFlight (editing imgA imgA imgA whiteMask) /\
  let s' := run hardDisc (editing imgA imgA imgA whiteMask)
              [ClickApply; ClickApply; MouseDown press; ClickApply] in
  singleFlight s' /\ (inFlight s' <> [] -> dispatch hardDisc ClickApply s' = s').
Proof.
  assert (H : singleFlight (editing imgA imgA imgA whiteMask)).
  { split; [cbn; lia|]. intros N. exfalso. apply N. reflexivity. }
  split; [exact H|].
  apply (C8_single_flight hardDisc (editing imgA imgA imgA whiteMask)
           [ClickApply; ClickApply; MouseDown press; ClickApply] H).
Defined.

Lemma C9_brush_radius_range_witness :
  5 <= brushSize (editing imgA imgA imgA whiteMask) <= 100 /\
  5 <= brushSize (run hardDisc (editing imgA imgA imgA whiteMask)
                    [ClickMinus; ClickMinus; ClickMinus; ClickMinus; ClickPlus]) <= 100.
Proof.
  assert (H : 5 <= brushSize (editing imgA imgA imgA whiteMask) <= 100) by (cbn; lia).
  split; [exact H|].
  apply (proj2 C9_brush_radius_range hardDisc (editing imgA imgA imgA whiteMask)
           [ClickMinus; ClickMinus; ClickMinus; ClickMinus; ClickPlus] H).
Defined.

Lemma online_only_after_health_check_witness :
  backendStatus init = Online \/
  exists n, HealthSettles 0 (HealthResponded true) = HealthSettles n (HealthResponded true) /\
            nth_error (pending init) n = Some Health.
Proof.
  apply (online_only_after_health_check hardDisc init (HealthSettles 0 (HealthResponded true))).
  reflexivity.
Defined.

Lemma request_failure_goes_offline_witness :
  let s' := handle hardDisc awaiting (TransformSettles 0 (Responded false 500 (inl replyOk))) in
  error s' = Some "Failed to process: Server error: 500" /\
  backendStatus s' = Offline /\ isProcessing s' = false /\
  image s' = image awaiting /\ originalImage s' = originalImage awaiting /\
  canvasRef s' = canvasRef awaiting /\ maskCanvasRef s' = maskCanvasRef awaiting /\
  sent s' = sent awaiting /\ pending s' = remove_nth 0 (pending awaiting) /\
  handle hardDisc s' ClickApply = s'.
Proof.
  apply (request_failure_goes_offline hardDisc awaiting 0
           (transformRequest Blur (Some (DataImage imgA)) (toDataURL whiteMask))
           (Some (DataImage imgA)) (Responded false 500 (inl replyOk)) "Server error: 500");
    reflexivity.
Defined.

Lemma result_not_an_image_witness :
  let data := mkReply true (Some (DataOther "data:text/plain,")) None in
  let s1 := handle hardDisc awaiting (TransformSettles 0 (Responded true 200 (inl data))) in
  let s2 := handle hardDisc s1 (Fire (length (pending s1) - 1)) in
  error s2 = Some "Failed to load processed image" /\
  isProcessing s2 = false /\ backendStatus s2 = backendStatus awaiting /\
  image s2 = image awaiting /\ originalImage s2 = originalImage awaiting /\
  canvasRef s2 = canvasRef awaiting /\ maskCanvasRef s2 = maskCanvasRef awaiting /\
  sent s2 = sent awaiting /\ pending s2 = remove_nth 0 (pending awaiting).
Proof.
  apply (result_not_an_image hardDisc awaiting 0
           (transformRequest Blur (Some (DataImage imgA)) (toDataURL whiteMask))
           (Some (DataImage imgA)) 200
           (mkReply true (Some (DataOther "data:text/plain,")) None));
    reflexivity.
Defined.

Lemma only_apply_sends_witness :
  ClickApply = ClickApply /\ image (editing imgA imgA imgA whiteMask) <> None /\
  maskCanvasRef (editing imgA imgA imgA whiteMask) <> None /\
  isProcessing (editing imgA imgA imgA whiteMask) = false /\
  backendStatus (editing imgA imgA imgA whiteMask) = Online.
Proof.
  apply (only_apply_sends hardDisc (editing imgA imgA imgA whiteMask) ClickApply).
  vm_compute. discriminate.
Defined.

Lemma stroke_only_adds_witness :
  exists m',
    maskCanvasRef (handle hardDisc (editing imgA imgA imgA blackMask) (MouseDown press)) = Some m' /\
    width m' = width blackMask /\ height m' = height blackMask /\
    length (pixels m') = length (pixels blackMask) /\ maskReady m' /\
    forall j, (j < length (pixels blackMask))%nat ->
      red (nth j (pixels blackMask) transparent) <= red (nth j (pixels m') transparent) /\
      selected m' j
      = ((let (x, y) := getMousePos press (editing imgA imgA imgA blackMask) in
          PrimFloat.is_finite x && PrimFloat.is_finite y
          && (clamp255 (hardDisc x y (brushSize (editing imgA imgA imgA blackMask))
                          (width blackMask) (height blackMask) j) >? 0))
         || selected blackMask j).
Proof.
  apply (stroke_only_adds hardDisc (editing imgA imgA imgA blackMask) (MouseDown press) press
           (DataImage imgA) imgA blackMask);
    try reflexivity.
  - left. reflexivity.
  - exact blackMask_ready.
  - vm_compute. discriminate.
Defined.

Lemma preview_shows_selection_witness :
  let s := editing imgA imgA imgB blackMask in
  let s1 := handle hardDisc s (MouseDown press) in
  let s2 := handle hardDisc s1 (Fire (length (pending s1) - 1)) in
  exists m1,
    maskCanvasRef s1 = Some m1 /\ maskCanvasRef s2 = Some m1 /\
    canvasRef s2 = Some (expectedPreview imgA m1) /\
    originalImage s2 = Some (DataImage imgA) /\ pending s2 = pending s.
Proof.
  apply (preview_shows_selection hardDisc (editing imgA imgA imgB blackMask) press
           (DataImage imgA) (DataImage imgA) imgA imgB blackMask);
    try reflexivity.
  - vm_compute. discriminate.
  - repeat constructor.
Defined.

Lemma clear_mask_shows_working_image_witness :
  let s := editing imgA imgA imgB whiteMask in
  let s1 := handle hardDisc s ClickClearMask in
  let s2 := handle hardDisc s1 (Fire (length (pending s1) - 1)) in
  canvasRef s2 = Some imgA /\
  (exists m', maskCanvasRef s2 = Some m' /\ allZero m' /\
              width m' = width whiteMask /\ height m' = height whiteMask /\
              length (pixels m') = length (pixels whiteMask)) /\
  originalImage s2 = Some (DataImage imgA) /\ image s2 = Some (DataImage imgA) /\
  sent s2 = sent s /\ pending s2 = pending s.
Proof.
  apply (clear_mask_shows_working_image hardDisc (editing imgA imgA imgB whiteMask)
           (DataImage imgA) (DataImage imgA) imgA imgB whiteMask);
    try reflexivity.
  repeat constructor.
Defined.

Lemma brush_after_clicks_witness :
  let s := editing imgA imgA imgA blackMask in
  brushSize (run hardDisc s (repeat ClickPlus 20)) = Z.min 100 (brushSize s + 5 * Z.of_nat 20) /\
  brushSize (run hardDisc s (repeat ClickMinus 20)) = Z.max 5 (brushSize s - 5 * Z.of_nat 20).
Proof.
  apply (brush_after_clicks hardDisc (editing imgA imgA imgA blackMask) 20 (DataImage imgA)).
  - reflexivity.
  - vm_compute. split; discriminate.
Defined.

(** In the editor state of [Scenario] images and canvases are in step. *)
Lemma editing_consistent : consistent (editing imgA imgA imgA blackMask).
Proof.
  unfold consistent. cbn. repeat split. exact blackMask_ready.
Qed.

Lemma consistent_preserved_witness :
  consistent (editing imgA imgA imgA blackMask) /\
  consistent (run hardDisc (editing imgA imgA imgA blackMask)
                [MouseDown press; Fire 0; ClickApply;
                 TransformSettles 0 (Responded true 200 (inl replyOk)); Fire 0; Fire 0;
                 ClickNewImage]).
Proof.
  split; [exact editing_consistent|].
  apply (proj2 consistent_preserved hardDisc (editing imgA imgA imgA blackMask)
           [MouseDown press; Fire 0; ClickApply;
            TransformSettles 0 (Responded true 200 (inl replyOk)); Fire 0; Fire 0;
            ClickNewImage] editing_consistent).
Defined.

Lemma enabled_apply_always_sends_witness :
  let s := editing imgA imgA imgA blackMask in
  exists u m,
    originalImage s = Some u /\ maskCanvasRef s = Some m /\
    sent (handle hardDisc s ClickApply)
    = transformRequest (mode s) (Some u) (toDataURL m) :: sent s /\
    isProcessing (handle hardDisc s ClickApply) = true /\
    error (handle hardDisc s ClickApply) = None.
Proof.
  apply (enabled_apply_always_sends hardDisc (editing imgA imgA imgA blackMask)
           editing_consistent).
  - discriminate.
  - reflexivity.
  - reflexivity.
Defined.

Lemma download_file_names_witness :
  let s := editing imgA imgA imgA blackMask in
  let s' := setMode Inpaint (editing imgA imgA imgB blackMask) in
  let prefix m :=
    match m with Blur => "blur-processed-" | Inpaint => "inpaint-processed-" end in
  exists digits digits',
    NilZero.int_of_string digits = Some (Z.to_int 1700000000000) /\
    NilZero.int_of_string digits' = Some (Z.to_int 1700000000000) /\
    downloadImage 1700000000000 s = Some (prefix (mode s) ++ digits ++ ".png", toDataURL imgA) /\
    downloadImage 1700000000000 s'
    = Some (prefix (mode s') ++ digits' ++ ".png", toDataURL imgB) /\
    (prefix (mode s) ++ digits ++ ".png" = prefix (mode s') ++ digits' ++ ".png"
     <-> mode s = mode s' /\ 1700000000000 = 1700000000000).
Proof.
  apply (download_file_names (editing imgA imgA imgA blackMask)
           (setMode Inpaint (editing imgA imgA imgB blackMask)) imgA imgB
           1700000000000 1700000000000); reflexivity.
Defined.

Lemma blurTool_request_settles_witness :
  let s := BlurTool.mkState (Some (DataImage imgA)) (Some (DataImage imgA)) false 20 Blur false
             (Some imgA) (Some whiteMask) 1 [] [] [] in
  let s1 := BlurTool.applyProcessing s in
  let s2 := BlurTool.transformSettled (Responded false 500 (inl (mkReply false None None)))
              (BlurTool.originalImage s) s1 in
  BlurTool.isProcessing s1 = true /\ BlurTool.isProcessing s2 = false /\
  BlurTool.sent s2
  = BlurTool.transformRequest (BlurTool.mode s) (BlurTool.originalImage s) (toDataURL whiteMask)
    :: BlurTool.sent s /\
  BlurTool.image s2 = BlurTool.image s /\
  BlurTool.originalImage s2 = BlurTool.originalImage s /\
  BlurTool.canvasRef s2 = Some imgA /\ BlurTool.maskCanvasRef s2 = Some whiteMask /\
  BlurTool.alerts s2 = "Error: undefined" :: BlurTool.alerts s.
Proof.
  apply (blurTool_request_settles (Responded false 500 (inl (mkReply false None None)))
           (BlurTool.mkState (Some (DataImage imgA)) (Some (DataImage imgA)) false 20 Blur false
              (Some imgA) (Some whiteMask) 1 [] [] []) imgA whiteMask); reflexivity.
Defined.

Lemma blurTool_mask_stays_binary_witness :
  let s := BlurTool.mkState (Some (DataImage imgA)) (Some (DataImage imgA)) false 20 Blur false
             (Some imgA) (Some (blank 1 1)) 1 [] [] [] in
  exists m',
    BlurTool.maskCanvasRef (BlurTool.draw hardDisc true press s) = Some m' /\
    width m' = 1%positive /\ height m' = 1%positive /\
    length (pixels m') = 1%nat /\
    Forall BlurTool.whiteOrClear (pixels m') /\
    ((BlurTool.isDrawing s = true \/ true = true) -> 0 <= BlurTool.brushSize s ->
     forall j, (j < 1)%nat ->
       selected m' j
       = ((let (x, y) := BlurTool.getMousePos press imgA in
           PrimFloat.is_finite x && PrimFloat.is_finite y
           && (clamp255 (hardDisc x y (BlurTool.brushSize s) 1 1 j) >? 0))
          || selected (blank 1 1) j)).
Proof.
  apply (blurTool_mask_stays_binary hardDisc true press
           (BlurTool.mkState (Some (DataImage imgA)) (Some (DataImage imgA)) false 20 Blur false
              (Some imgA) (Some (blank 1 1)) 1 [] [] []) imgA (blank 1 1));
    try reflexivity.
  apply blank_whiteOrClear.
Defined.
